(** * API access privileges of the studio's table editor

    A shallow embedding of the privilege logic of
    - [data/privileges/table-api-access-query.ts]  (module [Query]),
    - [data/privileges/table-api-access-mutation.ts] (module [Mutation]),
    - the [ApiAccessToggle] component of the table editor (module [Toggle]),
    - [hooks/misc/useRealtimeExperiment.ts] (module [Realtime]),
    followed by the properties proved about them. *)

From Stdlib Require Import List String Bool ZArith Arith Lia.
Import ListNotations.
Open Scope string_scope.

(* ===================================================================== *)
(** ** JavaScript helpers *)

(** [Array.prototype.includes] on an array of strings. *)
Definition includes (l : list string) (p : string) : bool :=
  existsb (String.eqb p) l.

(** [a ?? b] where [a] may be [undefined]. *)
Definition nullish {A : Type} (a : option A) (b : A) : A :=
  match a with
  | Some x => x
  | None => b
  end.

(** [a === b] where [a] is a string and [b] a string or [undefined]. *)
Definition strict_eq_opt (a : string) (b : option string) : bool :=
  match b with
  | Some s => String.eqb a s
  | None => false
  end.

(** Truthiness of an optional number: [undefined] and [0] are falsy. *)
Definition truthy_number (n : option Z) : bool :=
  match n with
  | Some z => negb (Z.eqb z 0)
  | None => false
  end.

(** [Array.prototype.join]. *)
Fixpoint join (sep : string) (l : list string) : string :=
  match l with
  | [] => ""
  | [s] => s
  | s :: rest => s ++ sep ++ join sep rest
  end.

(* ===================================================================== *)
(** ** table-api-access-query.ts *)

Module Query.

(** [ApiAccessRole = 'anon' | 'authenticated']. *)
Inductive ApiAccessRole : Type :=
| role_anon
| role_authenticated.

(** The string a role is at run time. *)
Definition role_name (r : ApiAccessRole) : string :=
  match r with
  | role_anon => "anon"
  | role_authenticated => "authenticated"
  end.

Definition API_ACCESS_ROLES : list ApiAccessRole :=
  [role_anon; role_authenticated].

(** [ApiPrivilegeType] is the [privilegeType] of a grant: a string at run
    time (the query casts the server's [privilege_type] to it, the component
    casts the selector's [string[]] to it). *)
Definition ApiPrivilegeType : Type := string.

Definition API_PRIVILEGE_TYPES : list ApiPrivilegeType :=
  ["SELECT"; "INSERT"; "UPDATE"; "DELETE"].

Record ApiPrivilegesPerRole : Type := {
  anon : list ApiPrivilegeType;
  authenticated : list ApiPrivilegeType
}.

(** [privileges[role]] *)
Definition get_role (r : ApiAccessRole) (p : ApiPrivilegesPerRole)
  : list ApiPrivilegeType :=
  match r with
  | role_anon => anon p
  | role_authenticated => authenticated p
  end.

(** [privileges[role] = v], also [{ ...privileges, [role]: v }] *)
Definition set_role (r : ApiAccessRole) (v : list ApiPrivilegeType)
  (p : ApiPrivilegesPerRole) : ApiPrivilegesPerRole :=
  match r with
  | role_anon => {| anon := v; authenticated := authenticated p |}
  | role_authenticated => {| anon := anon p; authenticated := v |}
  end.

(** [Object.values(privileges)], in the order of the keys. *)
Definition Object_values (p : ApiPrivilegesPerRole)
  : list (list ApiPrivilegeType) :=
  [anon p; authenticated p].

Record TableApiAccessData : Type := {
  hasApiAccess : bool;
  privileges : ApiPrivilegesPerRole
}.

(** The rows of [TablePrivilegesData], declared in table-privileges-query:
    the fields the mapping reads. [grantor] is carried along and never
    read. *)
Module Remote.
Record Privilege : Type := {
  grantor : string;
  grantee : string;
  privilege_type : string
}.

Record Entry : Type := {
  relation_id : Z;
  schema : string;
  name : string;
  privileges : list Privilege
}.
End Remote.

Definition TablePrivilegesData : Type := list Remote.Entry.

(** The predicate handed to [find]. *)
Definition isTarget (relationId : option Z) (schema tableName : option string)
  (entry : Remote.Entry) : bool :=
  if truthy_number relationId
  then match relationId with
       | Some id => Z.eqb (Remote.relation_id entry) id
       | None => false
       end
  else strict_eq_opt (Remote.schema entry) schema
       && strict_eq_opt (Remote.name entry) tableName.

(** [allPrivileges = target?.privileges ?? []] *)
Definition allPrivileges (data : option TablePrivilegesData)
  (relationId : option Z) (schema tableName : option string)
  : list Remote.Privilege :=
  match find (isTarget relationId schema tableName) (nullish data []) with
  | Some target => Remote.privileges target
  | None => []
  end.

(** The body of the loop over the roles. *)
Definition rolePrivileges (all : list Remote.Privilege) (role : ApiAccessRole)
  : list ApiPrivilegeType :=
  filter (fun p => includes API_PRIVILEGE_TYPES p)
    (map Remote.privilege_type
       (filter (fun p => String.eqb (Remote.grantee p) (role_name role)) all)).

Definition mapPrivilegesToApiAccess (data : option TablePrivilegesData)
  (relationId : option Z) (schema tableName : option string)
  : TableApiAccessData :=
  let all := allPrivileges data relationId schema tableName in
  let privilegesPerRole :=
    fold_left (fun acc role => set_role role (rolePrivileges all role) acc)
      API_ACCESS_ROLES {| anon := []; authenticated := [] |} in
  {| hasApiAccess :=
       (0 <? List.length (anon privilegesPerRole))%nat
       || (0 <? List.length (authenticated privilegesPerRole))%nat;
     privileges := privilegesPerRole |}.

End Query.

(* ===================================================================== *)
(** ** useRealtimeExperiment.ts *)

Module Realtime.

Inductive RealtimeButtonVariant : Type :=
| CONTROL
| HIDE_BUTTON
| TRIGGERS.

Definition variant_eqb (a b : RealtimeButtonVariant) : bool :=
  match a, b with
  | CONTROL, CONTROL | HIDE_BUTTON, HIDE_BUTTON | TRIGGERS, TRIGGERS => true
  | _, _ => false
  end.

(** The inputs of one call of the hook: the build constant [IS_PLATFORM],
    the option [isTable] ([None] when the caller leaves it out) and what
    [usePHFlag] returned ([None] for a falsy result: the flag is not
    loaded or is off; every variant is a non-empty string, hence truthy). *)
Record Inputs : Type := {
  IS_PLATFORM : bool;
  isTable : option bool;
  realtimeButtonVariant : option RealtimeButtonVariant
}.

(** [activeVariant]; [None] is [null]. *)
Definition activeVariant (i : Inputs) : option RealtimeButtonVariant :=
  let isTable := nullish (isTable i) false in
  if IS_PLATFORM i && isTable
  then match realtimeButtonVariant i with
       | Some v => if negb (variant_eqb v CONTROL) then Some v else None
       | None => None
       end
  else None.

End Realtime.

(* ===================================================================== *)
(** ** table-api-access-mutation.ts *)

Module Mutation.
Import Query.

(** One element of the arrays handed to pg-meta. *)
Record TablePrivilegesGrant : Type := {
  grantee : string;
  privilegeType : ApiPrivilegeType;
  relationId : Z
}.

(** The two entry points of pg-meta the mutation calls,
    [pgMeta.tablePrivileges.revoke] and [pgMeta.tablePrivileges.grant],
    each with the array it receives. *)
Inductive PgMetaCall : Type :=
| Revoke (grants : list TablePrivilegesGrant)
| Grant (grants : list TablePrivilegesGrant).

Definition privilegesToRevoke (rolePrivileges : list ApiPrivilegeType)
  : list ApiPrivilegeType :=
  filter (fun p => negb (includes rolePrivileges p)) API_PRIVILEGE_TYPES.

Definition privilegesToGrant (rolePrivileges : list ApiPrivilegeType)
  : list ApiPrivilegeType :=
  rolePrivileges.

(** [types.map((privilegeType) => ({ grantee: role, privilegeType, relationId }))] *)
Definition grantsOf (role : ApiAccessRole) (relationId : Z)
  (types : list ApiPrivilegeType) : list TablePrivilegesGrant :=
  map (fun privilegeType =>
         {| grantee := role_name role;
            privilegeType := privilegeType;
            relationId := relationId |}) types.

(** One turn of the loop over the roles: the calls to pg-meta, in order. *)
Definition roleCalls (relationId : Z) (privileges : ApiPrivilegesPerRole)
  (role : ApiAccessRole) : list PgMetaCall :=
  let rolePrivileges := get_role role privileges in
  (if (0 <? List.length (privilegesToRevoke rolePrivileges))%nat
   then [Revoke (grantsOf role relationId (privilegesToRevoke rolePrivileges))]
   else [])
  ++
  (if (0 <? List.length (privilegesToGrant rolePrivileges))%nat
   then [Grant (grantsOf role relationId (privilegesToGrant rolePrivileges))]
   else []).

Definition pgMetaCalls (relationId : Z) (privileges : ApiPrivilegesPerRole)
  : list PgMetaCall :=
  flat_map (roleCalls relationId privileges) API_ACCESS_ROLES.

Definition newline : string := String (Ascii.ascii_of_nat 10) EmptyString.

(** A string is truthy when it is not empty. *)
Definition truthy_string (s : string) : bool := negb (String.eqb s "").

Section Sql.
(** The SQL text pg-meta builds, after [.sql.trim()]. pg-meta is an
    external package: its generators are parameters here. *)
Variables revokeSql grantSql : list TablePrivilegesGrant -> string.

Definition callSql (c : PgMetaCall) : string :=
  match c with
  | Revoke grants => revokeSql grants
  | Grant grants => grantSql grants
  end.

(** [sqlStatements] when the loop is over: a statement is pushed unless
    its text is empty. *)
Definition sqlStatements (relationId : Z) (privileges : ApiPrivilegesPerRole)
  : list string :=
  filter truthy_string (map callSql (pgMetaCalls relationId privileges)).

(** The SQL handed to [executeSql]; [None] when the function returns
    [null] without executing anything. *)
Definition updateTableApiAccessPrivileges (relationId : Z)
  (privileges : ApiPrivilegesPerRole) : option string :=
  let statements := sqlStatements relationId privileges in
  if (List.length statements =? 0)%nat then None
  else Some (join newline statements).
End Sql.

(** The privilege types handed to [revoke], respectively [grant], for the
    grantee [role] over a run of calls. *)
Definition isGrantee (role : ApiAccessRole) (g : TablePrivilegesGrant) : bool :=
  String.eqb (grantee g) (role_name role).

Definition revokedFor (role : ApiAccessRole) (calls : list PgMetaCall)
  : list ApiPrivilegeType :=
  flat_map (fun c => match c with
                     | Revoke grants => map privilegeType (filter (isGrantee role) grants)
                     | Grant _ => []
                     end) calls.

Definition grantedFor (role : ApiAccessRole) (calls : list PgMetaCall)
  : list ApiPrivilegeType :=
  flat_map (fun c => match c with
                     | Grant grants => map privilegeType (filter (isGrantee role) grants)
                     | Revoke _ => []
                     end) calls.

End Mutation.

(* ===================================================================== *)
(** ** The ApiAccessToggle component *)

Module Toggle.
Import Query.

(** What one render reads: [tableFields.apiPrivileges] (the edit the parent
    holds), the data of [useTableApiAccessQuery], whether the schema is among
    the exposed ones, and the two flags of the editor. *)
Record Props : Type := {
  apiPrivileges : option ApiPrivilegesPerRole;
  apiAccessData : option TableApiAccessData;
  isSchemaExposed : bool;
  isNewRecord : bool;
  isDuplicating : bool
}.

Definition createDefaultRolePrivileges : ApiPrivilegesPerRole :=
  {| anon := API_PRIVILEGE_TYPES; authenticated := API_PRIVILEGE_TYPES |}.

Definition defaultPrivileges : ApiPrivilegesPerRole :=
  createDefaultRolePrivileges.

(** [tableFields.apiPrivileges ?? apiAccessData?.privileges ?? defaultPrivileges] *)
Definition derivedPrivileges (p : Props) : ApiPrivilegesPerRole :=
  nullish (apiPrivileges p)
    (nullish (option_map privileges (apiAccessData p)) defaultPrivileges).

Definition emptyPrivileges : ApiPrivilegesPerRole :=
  {| anon := []; authenticated := [] |}.

Definition effectivePrivileges (p : Props) : ApiPrivilegesPerRole :=
  if negb (isSchemaExposed p) && (isNewRecord p || isDuplicating p)
  then emptyPrivileges
  else derivedPrivileges p.

(** The values derived from [effectivePrivileges] in a render. *)
Definition isSwitchOn (effectivePrivileges : ApiPrivilegesPerRole) : bool :=
  existsb (fun privs => (0 <? List.length privs)%nat)
    (Object_values effectivePrivileges).

Definition hasAnyPrivileges (effectivePrivileges : ApiPrivilegesPerRole) : bool :=
  existsb (fun privileges => negb (List.length privileges =? 0)%nat)
    (Object_values effectivePrivileges).

Definition totalAvailablePrivileges : nat :=
  (List.length API_ACCESS_ROLES * List.length API_PRIVILEGE_TYPES)%nat.

Definition totalSelectedPrivileges (effectivePrivileges : ApiPrivilegesPerRole)
  : nat :=
  fold_left (fun acc privileges => (acc + List.length privileges)%nat)
    (Object_values effectivePrivileges) 0%nat.

Definition hasPartialPrivileges (effectivePrivileges : ApiPrivilegesPerRole)
  : bool :=
  (0 <? totalSelectedPrivileges effectivePrivileges)%nat
  && (totalSelectedPrivileges effectivePrivileges <? totalAvailablePrivileges)%nat.

(** The component between two renders: its props and the [useState] cell
    [savedPrivileges] ([None] is [undefined], its initial value). *)
Record State : Type := {
  props : Props;
  savedPrivileges : option ApiPrivilegesPerRole
}.

Definition setSavedPrivileges (v : ApiPrivilegesPerRole) (st : State) : State :=
  {| props := props st; savedPrivileges := Some v |}.

(** A handler returns the state it leaves and the argument it hands to
    [onChange?.(...)]; [None] when it does not call [onChange]. *)
Definition Emitted : Type := option ApiPrivilegesPerRole.

Definition handleMasterToggle (st : State) (checked : bool) : State * Emitted :=
  if negb (isSchemaExposed (props st)) then (st, None)
  else if negb checked
  then (setSavedPrivileges (effectivePrivileges (props st)) st,
        Some {| anon := []; authenticated := [] |})
  else (st, Some (nullish (savedPrivileges st) createDefaultRolePrivileges)).

Definition handlePrivilegesChange (st : State) (role : ApiAccessRole)
  (values : list string) : State * Emitted :=
  if negb (isSchemaExposed (props st)) then (st, None)
  else (st, Some (set_role role values (effectivePrivileges (props st)))).

(** The effect that keeps [savedPrivileges] in sync: it runs after a render
    whose [effectivePrivileges] or [isSwitchOn] changed. Running it after
    every render writes the same value, since it only depends on them. *)
Definition syncSavedPrivileges (st : State) : State :=
  if isSwitchOn (effectivePrivileges (props st))
  then setSavedPrivileges (effectivePrivileges (props st)) st
  else st.

(** What can happen to a mounted component. *)
Inductive Event : Type :=
| MasterToggle (checked : bool)
| PrivilegesChange (role : ApiAccessRole) (values : list string)
| Rerender (p : Props).

Definition handle (st : State) (ev : Event) : State * Emitted :=
  match ev with
  | MasterToggle checked => handleMasterToggle st checked
  | PrivilegesChange role values => handlePrivilegesChange st role values
  | Rerender p => ({| props := p; savedPrivileges := savedPrivileges st |}, None)
  end.

(** An event, the render it causes and the effect of that render. *)
Definition step (st : State) (ev : Event) : State :=
  syncSavedPrivileges (fst (handle st ev)).

Definition emitted (st : State) (ev : Event) : Emitted :=
  snd (handle st ev).

Definition mount (p : Props) : State :=
  syncSavedPrivileges {| props := p; savedPrivileges := None |}.

Definition run (p : Props) (evs : list Event) : State :=
  fold_left step evs (mount p).

(** A parent that keeps the emitted value as the pending edit renders the
    component again with it in [tableFields.apiPrivileges]. *)
Definition withEdit (e : Emitted) (p : Props) : Props :=
  match e with
  | Some v => {| apiPrivileges := Some v;
                 apiAccessData := apiAccessData p;
                 isSchemaExposed := isSchemaExposed p;
                 isNewRecord := isNewRecord p;
                 isDuplicating := isDuplicating p |}
  | None => p
  end.

(** The switch is controlled by [isSwitchOn]: it only asks to be turned off
    while it is on. *)
Definition switchAllows (st : State) (ev : Event) : Prop :=
  match ev with
  | MasterToggle false => isSwitchOn (effectivePrivileges (props st)) = true
  | _ => True
  end.

Inductive reachable : State -> Prop :=
| reachable_mount : forall p, reachable (mount p)
| reachable_step : forall st ev,
    reachable st -> switchAllows st ev -> reachable (step st ev).

End Toggle.

(* ===================================================================== *)
(** ** Vocabulary of the properties *)

Module Vocabulary.
Import Query.

(** The object with the same sequence [f r] under every role [r]. *)
Definition allRoles (f : ApiAccessRole -> list ApiPrivilegeType)
  : ApiPrivilegesPerRole :=
  {| anon := f role_anon; authenticated := f role_authenticated |}.




End Vocabulary.

(* ===================================================================== *)
(** ** Sample inputs *)

Module Samples.
Import Query.

Definition row (grantor grantee privilege_type : string) : Remote.Privilege :=
  {| Remote.grantor := grantor;
     Remote.grantee := grantee;
     Remote.privilege_type := privilege_type |}.

(** A table whose privileges name a foreign grantee and kinds outside the
    fixed set. *)
Definition todos : Remote.Entry :=
  {| Remote.relation_id := 17;
     Remote.schema := "public";
     Remote.name := "todos";
     Remote.privileges :=
       [ row "postgres" "anon" "SELECT";
         row "postgres" "anon" "TRUNCATE";
         row "postgres" "service_role" "DELETE";
         row "postgres" "authenticated" "REFERENCES";
         row "postgres" "authenticated" "SELECT";
         row "postgres" "authenticated" "INSERT" ] |}.

(** A table on which two grantors gave [anon] the same four privileges. *)
Definition notes : Remote.Entry :=
  {| Remote.relation_id := 23;
     Remote.schema := "public";
     Remote.name := "notes";
     Remote.privileges :=
       [ row "postgres" "anon" "SELECT";
         row "postgres" "anon" "INSERT";
         row "postgres" "anon" "UPDATE";
         row "postgres" "anon" "DELETE";
         row "supabase_admin" "anon" "SELECT";
         row "supabase_admin" "anon" "INSERT";
         row "supabase_admin" "anon" "UPDATE";
         row "supabase_admin" "anon" "DELETE" ] |}.

Definition payload : TablePrivilegesData := [todos; notes].

(** An existing table of an exposed schema, nothing edited, nothing
    fetched yet. *)
Definition existingTable (remote : option TableApiAccessData) : Toggle.Props :=
  {| Toggle.apiPrivileges := None;
     Toggle.apiAccessData := remote;
     Toggle.isSchemaExposed := true;
     Toggle.isNewRecord := false;
     Toggle.isDuplicating := false |}.

(** A new table in a schema that is not exposed. *)
Definition newUnexposed : Toggle.Props :=
  {| Toggle.apiPrivileges := None;
     Toggle.apiAccessData := None;
     Toggle.isSchemaExposed := false;
     Toggle.isNewRecord := true;
     Toggle.isDuplicating := false |}.

(** The remote value of the worked example: [anon] may select,
    [authenticated] nothing. *)
Definition anonSelects : ApiPrivilegesPerRole :=
  {| anon := ["SELECT"]; authenticated := [] |}.

Definition anonSelectsRemote : TableApiAccessData :=
  {| hasApiAccess := true; privileges := anonSelects |}.

(** An exposed table whose pending edit has switched every privilege off. *)
Definition switchedOff : Toggle.Props :=
  {| Toggle.apiPrivileges := Some Toggle.emptyPrivileges;
     Toggle.apiAccessData := Some anonSelectsRemote;
     Toggle.isSchemaExposed := true;
     Toggle.isNewRecord := false;
     Toggle.isDuplicating := false |}.

End Samples.

(* ===================================================================== *)
(** ** More of the JavaScript strings *)

Module Js.
Import Ascii.

(** [!!s] for a string that may be [undefined] (or [null]). *)
Definition truthy_opt_string (s : option string) : bool :=
  match s with
  | Some v => negb (String.eqb v "")
  | None => false
  end.

(** Whether the character [c] occurs in [s]. *)
Fixpoint occurs (c : Ascii.ascii) (s : string) : bool :=
  match s with
  | EmptyString => false
  | String d rest => Ascii.eqb d c || occurs c rest
  end.

(** [s.replace(/ /g, '')] *)
Fixpoint removeSpaces (s : string) : string :=
  match s with
  | EmptyString => EmptyString
  | String c rest =>
      if Ascii.eqb c " "%char then removeSpaces rest
      else String c (removeSpaces rest)
  end.

(** [s.split(',')]: the pieces between the commas, the empty ones too. *)
Fixpoint splitComma (s : string) : list string :=
  match s with
  | EmptyString => [EmptyString]
  | String c rest =>
      if Ascii.eqb c ","%char
      then EmptyString :: splitComma rest
      else match splitComma rest with
           | piece :: pieces => String c piece :: pieces
           | [] => [String c EmptyString]
           end
  end.

(** [s.endsWith('/')] *)
Fixpoint endsWithSlash (s : string) : bool :=
  match s with
  | EmptyString => false
  | String c EmptyString => Ascii.eqb c "/"%char
  | String _ rest => endsWithSlash rest
  end.

(** [s.slice(0, -1)] *)
Fixpoint dropLast (s : string) : string :=
  match s with
  | EmptyString => EmptyString
  | String _ EmptyString => EmptyString
  | String c rest => String c (dropLast rest)
  end.

End Js.

(* ===================================================================== *)
(** ** table-api-access-query.ts: when the query runs *)

Module QueryOptions.
Import Query Js.

(** [null] and [undefined] are both [None]: only truthiness is read. *)
Record TableApiAccessVariables : Type := {
  projectRef : option string;
  connectionString : option string;
  relationId : option Z;
  schema : option string;
  tableName : option string
}.

Definition hasValidTarget (v : TableApiAccessVariables) : bool :=
  truthy_number (relationId v)
  || (truthy_opt_string (schema v) && truthy_opt_string (tableName v)).

(** The [enabled] option handed to [useTablePrivilegesQuery]. *)
Definition queryEnabled (v : TableApiAccessVariables) (enabled : bool) : bool :=
  enabled
  && truthy_opt_string (projectRef v)
  && truthy_opt_string (connectionString v)
  && hasValidTarget v.

(** The [select] option. *)
Definition select (v : TableApiAccessVariables)
  (data : option TablePrivilegesData) : TableApiAccessData :=
  mapPrivilegesToApiAccess data (relationId v) (schema v) (tableName v).

End QueryOptions.

(* ===================================================================== *)
(** ** The ApiAccessToggle component: what it shows *)

Module ToggleView.
Import Query Toggle Js.

(** [exposedSchemas], from [postgrestConfig?.db_schema]. *)
Definition exposedSchemas (db_schema : option string) : list string :=
  if negb (truthy_opt_string db_schema) then []
  else splitComma (removeSpaces (nullish db_schema "")).

(** [exposedSchemas.includes(schema)] *)
Definition isSchemaExposedIn (db_schema : option string) (schema : string)
  : bool :=
  includes (exposedSchemas db_schema) schema.

(** The argument of [onInitialLoad?.(...)] in the effect that reports the
    fetched privileges; [None] when the effect calls nothing. *)
Definition initialLoad (p : Props) : Emitted :=
  match apiAccessData p, apiPrivileges p with
  | Some data, None =>
      if isSchemaExposed p then Some (privileges data) else None
  | _, _ => None
  end.

Definition isLoadingState (p : Props) (isApiAccessLoading : bool) : bool :=
  negb (isNewRecord p) && negb (isDuplicating p) && isApiAccessLoading.

Definition isDisabled (p : Props) (isApiAccessLoading : bool) : bool :=
  isLoadingState p isApiAccessLoading || negb (isSchemaExposed p).

(** [apiBaseUrl], from the endpoint the component selected. *)
Definition apiBaseUrl (apiEndpoint : option string) : option string :=
  match apiEndpoint with
  | None => None
  | Some endpoint =>
      if String.eqb endpoint "" then None
      else if endsWithSlash endpoint then Some (dropLast endpoint)
      else Some endpoint
  end.

(** [tablePath]. [tableName] is [tableFields.name], a string, so that the
    fallbacks after it are never taken. *)
Definition tablePath (schema tableName : string) : string :=
  if negb (String.eqb schema "") && negb (String.eqb schema "public")
  then schema ++ "." ++ tableName
  else tableName.

Definition apiUrl (apiEndpoint : option string) (schema tableName : string)
  : option string :=
  match apiBaseUrl apiEndpoint with
  | Some base =>
      if negb (String.eqb base "")
         && negb (String.eqb (tablePath schema tableName) "")
      then Some (base ++ "/" ++ tablePath schema tableName)
      else None
  | None => None
  end.

(** The read-only input with the URL is rendered under this condition; it
    then shows the URL. *)
Definition shownApiUrl (p : Props) (apiEndpoint : option string)
  (schema tableName : string) : option string :=
  match apiUrl apiEndpoint schema tableName with
  | Some url =>
      if isSchemaExposed p && hasAnyPrivileges (effectivePrivileges p)
      then Some url else None
  | None => None
  end.

End ToggleView.

(* ===================================================================== *)
(** ** The ApiAccessToggle component with a single boolean *)

Module BooleanToggle.
Import Query.

(** What one render reads: [tableFields.isApiAccessEnabled], the data of
    the query and the flags. *)
Record Props : Type := {
  isApiAccessEnabled : option bool;
  apiAccessData : option TableApiAccessData;
  isSchemaExposed : bool;
  isNewRecord : bool;
  isDuplicating : bool
}.

(** [tableFields.isApiAccessEnabled ?? apiAccessData?.hasApiAccess ?? true] *)
Definition derivedApiAccessEnabled (p : Props) : bool :=
  nullish (isApiAccessEnabled p)
    (nullish (option_map hasApiAccess (apiAccessData p)) true).

(** The [checked] prop of the switch. *)
Definition checked (p : Props) : bool :=
  isSchemaExposed p && derivedApiAccessEnabled p.

(** The argument of [onInitialLoad?.(...)]; [None] when nothing is called. *)
Definition initialLoad (p : Props) : option bool :=
  match apiAccessData p, isApiAccessEnabled p with
  | Some data, None => Some (hasApiAccess data)
  | _, _ => None
  end.

Definition isLoadingState (p : Props) (isApiAccessLoading : bool) : bool :=
  negb (isNewRecord p) && negb (isDuplicating p) && isApiAccessLoading.

Definition isDisabled (p : Props) (isApiAccessLoading : bool) : bool :=
  isLoadingState p isApiAccessLoading || negb (isSchemaExposed p).

End BooleanToggle.

(* ===================================================================== *)
(** ** useRealtimeExperiment.ts: the exposure event *)

Module RealtimeExposure.
Import Realtime.

(** The properties of the [realtime_experiment_exposed] event (its
    [experiment_id] is a constant). *)
Record Exposure : Type := {
  variant : RealtimeButtonVariant;
  table_has_realtime_enabled : bool
}.

(** One run of the effect: the ref [hasTrackedExposure] before it, the ref
    after it and the event handed to [track], if any. *)
Definition exposureEffect (hasTrackedExposure : bool) (i : Inputs)
  (isRealtimeEnabled : option bool) : bool * option Exposure :=
  if negb (IS_PLATFORM i) then (hasTrackedExposure, None)
  else if hasTrackedExposure then (hasTrackedExposure, None)
  else if negb (nullish (isTable i) false) then (hasTrackedExposure, None)
  else match realtimeButtonVariant i with
       | None => (hasTrackedExposure, None)
       | Some v =>
           (true, Some {| variant := v;
                          table_has_realtime_enabled :=
                            nullish isRealtimeEnabled false |})
       end.

(** The runs of the effect over the life of one mounted hook, in order: the
    ref starts at [false]; the result is the ref at the end and the events
    tracked, oldest first. *)
Fixpoint exposureRuns (hasTrackedExposure : bool)
  (renders : list (Inputs * option bool)) : bool * list Exposure :=
  match renders with
  | [] => (hasTrackedExposure, [])
  | (i, isRealtimeEnabled) :: rest =>
      let (tracked, event) := exposureEffect hasTrackedExposure i isRealtimeEnabled in
      let (final, events) := exposureRuns tracked rest in
      (final, match event with
              | Some e => e :: events
              | None => events
              end)
  end.

End RealtimeExposure.

(* ===================================================================== *)
(** ** A parent that keeps the edits *)

Module Controlled.
Import Query Toggle.

(** An event under a parent that stores whatever the handler emitted in
    [tableFields.apiPrivileges] and renders the component again. *)
Definition keep (st : State) (ev : Event) : State :=
  step (step st ev) (Rerender (withEdit (emitted st ev) (props (step st ev)))).

End Controlled.

(* ===================================================================== *)
(** ** More sample inputs *)

Module MoreSamples.
Import Query Realtime.

(** What the mapping answers when it finds nothing. *)
Definition noAccess : TableApiAccessData :=
  {| hasApiAccess := false;
     privileges := {| anon := []; authenticated := [] |} |}.

Definition byName : QueryOptions.TableApiAccessVariables :=
  {| QueryOptions.projectRef := Some "abcd";
     QueryOptions.connectionString := Some "postgresql://db";
     QueryOptions.relationId := None;
     QueryOptions.schema := Some "public";
     QueryOptions.tableName := None |}.

(** [authenticated] alone may select. *)
Definition onlyAuthenticated : ApiPrivilegesPerRole :=
  {| anon := []; authenticated := ["SELECT"] |}.

Definition onlyAuthenticatedTable : Toggle.Props :=
  {| Toggle.apiPrivileges := Some onlyAuthenticated;
     Toggle.apiAccessData := None;
     Toggle.isSchemaExposed := true;
     Toggle.isNewRecord := false;
     Toggle.isDuplicating := false |}.

Definition onPlatform (flag : option RealtimeButtonVariant) : Inputs :=
  {| IS_PLATFORM := true; isTable := Some true; realtimeButtonVariant := flag |}.

End MoreSamples.

(* ===================================================================== *)
(** * Properties *)

(** ** Facts about the helpers *)

Lemma includes_In (l : list string) (p : string) :
  includes l p = true <-> In p l.
Proof.
  unfold includes. rewrite existsb_exists. split.
  - intros [x [Hin Heq]]. apply String.eqb_eq in Heq. now subst.
  - intros Hin. exists p. split; [assumption | apply String.eqb_refl].
Qed.

Lemma includes_false (l : list string) (p : string) :
  includes l p = false <-> ~ In p l.
Proof.
  rewrite <- includes_In. destruct (includes l p); split; congruence.
Qed.

Module QueryFacts.
Import Query Samples.

Lemma get_set_role_same r v p : get_role r (set_role r v p) = v.
Proof. now destruct r. Qed.

Lemma get_set_role_other r r' v p :
  r <> r' -> get_role r' (set_role r v p) = get_role r' p.
Proof. destruct r, r'; simpl; congruence. Qed.

Lemma role_name_inj r r' : role_name r = role_name r' -> r = r'.
Proof. destruct r, r'; simpl; congruence. Qed.

(** The loop leaves, under each role, what its body computed for it. *)
Lemma mapPrivileges_role data relationId schema tableName role :
  get_role role (privileges (mapPrivilegesToApiAccess data relationId schema tableName))
  = rolePrivileges (allPrivileges data relationId schema tableName) role.
Proof. now destruct role. Qed.

Lemma rolePrivileges_In all role p :
  In p (rolePrivileges all role) <->
  In p API_PRIVILEGE_TYPES /\
  exists row, In row all
              /\ Remote.grantee row = role_name role
              /\ Remote.privilege_type row = p.
Proof.
  unfold rolePrivileges. rewrite filter_In, in_map_iff, includes_In.
  split.
  - intros [[row [Hty Hrow]] Hfixed]. apply filter_In in Hrow.
    destruct Hrow as [Hin Hg]. apply String.eqb_eq in Hg.
    split; [assumption | now exists row].
  - intros [Hfixed [row [Hin [Hg Hty]]]]. split; [| assumption].
    exists row. split; [assumption |]. apply filter_In.
    split; [assumption |]. now apply String.eqb_eq.
Qed.

(** The rows read are those of the first entry that matches the target. *)
Lemma allPrivileges_In data relationId schema tableName row :
  In row (allPrivileges (Some data) relationId schema tableName) ->
  exists entry, In entry data
                /\ isTarget relationId schema tableName entry = true
                /\ In row (Remote.privileges entry).
Proof.
  unfold allPrivileges. simpl.
  destruct (find _ data) as [target |] eqn:Hfind; [| contradiction].
  intros Hin. apply find_some in Hfind. exists target. tauto.
Qed.

Lemma allPrivileges_undefined relationId schema tableName :
  allPrivileges None relationId schema tableName = [].
Proof. reflexivity. Qed.

(** What the mapping makes of the sample payload: the kinds outside the
    fixed set and the rows of other grantees are gone. *)
Example mapPrivileges_todos :
  mapPrivilegesToApiAccess (Some payload) (Some 17%Z) None None
  = {| hasApiAccess := true;
       privileges := {| anon := ["SELECT"];
                        authenticated := ["SELECT"; "INSERT"] |} |}.
Proof. reflexivity. Qed.

Example mapPrivileges_by_name :
  mapPrivilegesToApiAccess (Some payload) None (Some "public") (Some "todos")
  = mapPrivilegesToApiAccess (Some payload) (Some 17%Z) None None.
Proof. reflexivity. Qed.

Example mapPrivileges_no_target :
  mapPrivilegesToApiAccess (Some payload) (Some 99%Z) None None
  = {| hasApiAccess := false;
       privileges := {| anon := []; authenticated := [] |} |}.
Proof. reflexivity. Qed.

(** C9. For every fetched payload the mapping returns a value (it is a total
    function: nothing is an error), in which a role has a kind exactly when
    the kind is one of the fixed set and a row of the target grants it to
    that role; rows of other grantees and kinds outside the fixed set are
    dropped. Hence, when this value is the source of the effective
    privileges, every effective kind of every role is in the fixed set. *)
Theorem mapPrivilegesToApiAccess_fixed_kinds
  (data : option TablePrivilegesData) (relationId : option Z)
  (schema tableName : option string) :
  let remote := mapPrivilegesToApiAccess data relationId schema tableName in
  (forall role p,
      In p (get_role role (privileges remote)) <->
      In p API_PRIVILEGE_TYPES /\
      exists row, In row (allPrivileges data relationId schema tableName)
                  /\ Remote.grantee row = role_name role
                  /\ Remote.privilege_type row = p)
  /\
  (forall props role p,
      Toggle.apiPrivileges props = None ->
      Toggle.apiAccessData props = Some remote ->
      In p (get_role role (Toggle.effectivePrivileges props)) ->
      In p API_PRIVILEGE_TYPES).
Proof.
  intros remote. split.
  - intros role p. unfold remote. rewrite mapPrivileges_role.
    apply rolePrivileges_In.
  - intros props role p Hedit Hdata.
    unfold Toggle.effectivePrivileges, Toggle.derivedPrivileges.
    rewrite Hedit, Hdata. cbn [nullish option_map].
    destruct (negb (Toggle.isSchemaExposed props)
              && (Toggle.isNewRecord props || Toggle.isDuplicating props)).
    + destruct role; contradiction.
    + unfold remote. rewrite mapPrivileges_role.
      intros Hin. now apply rolePrivileges_In in Hin.
Qed.

(** The theorem at the sample payload, read off an existing table. *)
Lemma mapPrivilegesToApiAccess_fixed_kinds_witness :
  In "SELECT" API_PRIVILEGE_TYPES.
Proof.
  apply (proj2 (mapPrivilegesToApiAccess_fixed_kinds
                  (Some payload) (Some 17%Z) None None)
           (existingTable
              (Some (mapPrivilegesToApiAccess (Some payload) (Some 17%Z) None None)))
           role_authenticated "SELECT").
  - reflexivity.
  - reflexivity.
  - simpl. left. reflexivity.
Defined.

End QueryFacts.

Module ToggleFacts.
Import Query Toggle Vocabulary Samples.

Lemma get_role_allRoles f r : get_role r (allRoles f) = f r.
Proof. now destruct r. Qed.

Lemma role_ext (a b : ApiPrivilegesPerRole) :
  (forall r, get_role r a = get_role r b) -> a = b.
Proof.
  intros H. destruct a as [a1 a2], b as [b1 b2].
  pose proof (H role_anon) as Ha. pose proof (H role_authenticated) as Hb.
  simpl in Ha, Hb. now subst.
Qed.

Lemma isSwitchOn_false_iff e :
  isSwitchOn e = false <-> e = emptyPrivileges.
Proof.
  destruct e as [a b]. unfold isSwitchOn, emptyPrivileges. simpl.
  destruct a, b; simpl; split; congruence.
Qed.

Lemma isSwitchOn_true_iff e :
  isSwitchOn e = true <-> exists r, get_role r e <> [].
Proof.
  destruct e as [a b]. unfold isSwitchOn. simpl. split.
  - destruct a as [| x a].
    + destruct b as [| y b]; simpl; [discriminate |].
      intros _. exists role_authenticated. simpl. discriminate.
    + intros _. exists role_anon. simpl. discriminate.
  - intros [[] Hr]; simpl in Hr.
    + destruct a; [contradiction | reflexivity].
    + destruct a; [| reflexivity]. destruct b; [contradiction | reflexivity].
Qed.

(** C1. The effective privileges are: every role mapped to the empty
    sequence when the schema is not exposed and the table is new or being
    duplicated; otherwise the pending edit when there is one, else the
    fetched privileges when there are some, else all privileges for every
    role. *)
Theorem effectivePrivileges_precedence (p : Props) :
  effectivePrivileges p =
  if negb (isSchemaExposed p) && (isNewRecord p || isDuplicating p)
  then allRoles (fun _ => [])
  else match apiPrivileges p, apiAccessData p with
       | Some pendingEdit, _ => pendingEdit
       | None, Some remote => privileges remote
       | None, None => allRoles (fun _ => API_PRIVILEGE_TYPES)
       end.
Proof.
  unfold effectivePrivileges, derivedPrivileges.
  destruct (negb (isSchemaExposed p) && (isNewRecord p || isDuplicating p));
    [reflexivity |].
  destruct (apiPrivileges p) as [pendingEdit |]; [reflexivity |].
  destruct (apiAccessData p) as [remote |]; reflexivity.
Qed.

(** The testable form: an unexposed schema and a new table give no
    privilege to any role. *)
Lemma effectivePrivileges_new_unexposed (p : Props) (r : ApiAccessRole) :
  isSchemaExposed p = false -> isNewRecord p = true ->
  get_role r (effectivePrivileges p) = [].
Proof.
  intros He Hn. unfold effectivePrivileges. rewrite He, Hn. simpl.
  now destruct r.
Qed.

(** *** The two handlers *)

(** C6. With the schema exposed, switching off stores the current effective
    privileges in [savedPrivileges] and emits the edit that maps every role
    to the empty sequence; switching on emits the saved privileges when
    there are some, else all privileges for every role, and leaves the state
    alone. With the schema not exposed the handler emits nothing and leaves
    the state alone. *)
Theorem handleMasterToggle_cases (st : State) :
  (isSchemaExposed (props st) = true ->
   handleMasterToggle st false
   = ({| props := props st;
         savedPrivileges := Some (effectivePrivileges (props st)) |},
      Some (allRoles (fun _ => [])))
   /\ handleMasterToggle st true
      = (st, Some match savedPrivileges st with
                  | Some saved => saved
                  | None => allRoles (fun _ => API_PRIVILEGE_TYPES)
                  end))
  /\ (isSchemaExposed (props st) = false ->
      forall checked, handleMasterToggle st checked = (st, None)).
Proof.
  unfold handleMasterToggle. split; intros Hexposed; rewrite Hexposed; simpl.
  - split; [reflexivity |]. now destruct (savedPrivileges st).
  - reflexivity.
Qed.

Lemma handleMasterToggle_cases_witness :
  (handleMasterToggle (mount (existingTable (Some anonSelectsRemote))) false
   = ({| props := existingTable (Some anonSelectsRemote);
         savedPrivileges := Some anonSelects |},
      Some emptyPrivileges)
   /\ handleMasterToggle (mount (existingTable (Some anonSelectsRemote))) true
      = (mount (existingTable (Some anonSelectsRemote)), Some anonSelects))
  /\ handleMasterToggle (mount newUnexposed) true = (mount newUnexposed, None).
Proof.
  split.
  - apply (proj1 (handleMasterToggle_cases
                    (mount (existingTable (Some anonSelectsRemote))))).
    reflexivity.
  - apply (proj2 (handleMasterToggle_cases (mount newUnexposed))).
    reflexivity.
Defined.

(** C7. With the schema exposed, a change of one role's selection emits the
    effective privileges with that role's sequence replaced by the new
    values and every other role's sequence as it was; the state is left
    alone. With the schema not exposed nothing is emitted and the state is
    left alone. *)
Theorem handlePrivilegesChange_frame
  (st : State) (role : ApiAccessRole) (values : list string) :
  (isSchemaExposed (props st) = true ->
   exists edit,
     handlePrivilegesChange st role values = (st, Some edit)
     /\ get_role role edit = values
     /\ forall r, r <> role ->
                  get_role r edit = get_role r (effectivePrivileges (props st)))
  /\ (isSchemaExposed (props st) = false ->
      handlePrivilegesChange st role values = (st, None)).
Proof.
  unfold handlePrivilegesChange. split; intros Hexposed; rewrite Hexposed; simpl.
  - eexists. split; [reflexivity |]. split.
    + apply QueryFacts.get_set_role_same.
    + intros r Hr. apply QueryFacts.get_set_role_other. congruence.
  - reflexivity.
Qed.

Lemma handlePrivilegesChange_frame_witness :
  (exists edit,
      handlePrivilegesChange (mount (existingTable (Some anonSelectsRemote)))
        role_authenticated ["SELECT"; "UPDATE"]
      = (mount (existingTable (Some anonSelectsRemote)), Some edit)
      /\ get_role role_authenticated edit = ["SELECT"; "UPDATE"]
      /\ forall r, r <> role_authenticated ->
                   get_role r edit = get_role r anonSelects)
  /\ handlePrivilegesChange (mount newUnexposed) role_anon ["SELECT"]
     = (mount newUnexposed, None).
Proof.
  split.
  - apply (proj1 (handlePrivilegesChange_frame
                    (mount (existingTable (Some anonSelectsRemote)))
                    role_authenticated ["SELECT"; "UPDATE"])).
    reflexivity.
  - apply (proj2 (handlePrivilegesChange_frame
                    (mount newUnexposed) role_anon ["SELECT"])).
    reflexivity.
Defined.

(** *** Runs of the component *)

Lemma props_sync (st : State) : props (syncSavedPrivileges st) = props st.
Proof.
  unfold syncSavedPrivileges.
  now destruct (isSwitchOn (effectivePrivileges (props st))).
Qed.

Lemma saved_sync (st : State) :
  savedPrivileges (syncSavedPrivileges st)
  = if isSwitchOn (effectivePrivileges (props st))
    then Some (effectivePrivileges (props st))
    else savedPrivileges st.
Proof.
  unfold syncSavedPrivileges.
  now destruct (isSwitchOn (effectivePrivileges (props st))).
Qed.

Lemma effectivePrivileges_withEdit (p : Props) (edit : ApiPrivilegesPerRole) :
  isSchemaExposed p = true ->
  effectivePrivileges (withEdit (Some edit) p) = edit.
Proof. intros H. unfold effectivePrivileges. simpl. now rewrite H. Qed.

(** C2. From any state with the schema exposed (a reachable one in
    particular), switching off and then on, with no other change of the
    props in between than the parent keeping (or not) the edit emitted by
    the first call, emits the effective privileges that held before the
    first call. *)
Theorem toggle_off_on_restores (st : State) (kept : bool) :
  isSchemaExposed (props st) = true ->
  let off := MasterToggle false in
  let st1 := step st off in
  let st2 := if kept
             then step st1 (Rerender (withEdit (emitted st off) (props st1)))
             else st1 in
  emitted st2 (MasterToggle true) = Some (effectivePrivileges (props st)).
Proof.
  intros Hexposed off st1 st2.
  assert (props st1 = props st) as Hprops.
  { unfold st1, step, off, handle, handleMasterToggle.
    rewrite props_sync, Hexposed. reflexivity. }
  assert (savedPrivileges st1 = Some (effectivePrivileges (props st))) as Hsaved.
  { unfold st1, step, off, handle, handleMasterToggle.
    rewrite saved_sync, Hexposed. simpl.
    now destruct (isSwitchOn (effectivePrivileges (props st))). }
  assert (emitted st off = Some emptyPrivileges) as Hoff.
  { unfold emitted, off, handle, handleMasterToggle. now rewrite Hexposed. }
  assert (isSchemaExposed (props st2) = true
          /\ savedPrivileges st2 = Some (effectivePrivileges (props st)))
    as [Hexposed2 Hsaved2].
  { unfold st2. destruct kept.
    - rewrite Hoff, Hprops. unfold step, handle.
      rewrite props_sync, saved_sync. cbn [fst props savedPrivileges].
      rewrite effectivePrivileges_withEdit by assumption.
      split; [simpl; assumption | exact Hsaved].
    - rewrite Hprops. split; assumption. }
  unfold emitted, handle, handleMasterToggle.
  rewrite Hexposed2, Hsaved2. reflexivity.
Qed.

Lemma toggle_off_on_restores_witness :
  emitted
    (step (step (mount (existingTable (Some anonSelectsRemote)))
             (MasterToggle false))
       (Rerender switchedOff))
    (MasterToggle true)
  = Some anonSelects.
Proof.
  apply (toggle_off_on_restores
           (mount (existingTable (Some anonSelectsRemote))) true).
  reflexivity.
Defined.

(** The worked example, with a parent that keeps every emitted edit: after
    switching off and on the effective privileges are again those fetched. *)
Example toggle_off_on_example :
  let start := existingTable (Some anonSelectsRemote) in
  let st1 := step (mount start) (MasterToggle false) in
  let st2 := step st1 (Rerender (withEdit (emitted (mount start) (MasterToggle false))
                                    (props st1))) in
  let st3 := step st2 (MasterToggle true) in
  let st4 := step st3 (Rerender (withEdit (emitted st2 (MasterToggle true))
                                    (props st3))) in
  effectivePrivileges (props (mount start)) = anonSelects
  /\ effectivePrivileges (props st2) = emptyPrivileges
  /\ effectivePrivileges (props st4) = anonSelects.
Proof. repeat split. Qed.

(** *** The saved privileges *)

Lemma step_savedPrivileges (st : State) (ev : Event) :
  switchAllows st ev ->
  savedPrivileges (step st ev) = savedPrivileges st
  \/ (savedPrivileges (step st ev)
      = Some (effectivePrivileges (props (step st ev)))
      /\ isSwitchOn (effectivePrivileges (props (step st ev))) = true).
Proof.
  intros Hallowed. unfold step. rewrite saved_sync, props_sync.
  destruct (isSwitchOn (effectivePrivileges (props (fst (handle st ev)))))
    eqn:Hon; [right; split; reflexivity |].
  left. destruct ev as [checked | role values | p]; simpl in *.
  - unfold handleMasterToggle in *.
    destruct (isSchemaExposed (props st)); simpl in *; [| reflexivity].
    destruct checked; simpl in *; [reflexivity | congruence].
  - unfold handlePrivilegesChange.
    now destruct (isSchemaExposed (props st)).
  - reflexivity.
Qed.

Lemma mount_savedPrivileges (p : Props) (e : ApiPrivilegesPerRole) :
  savedPrivileges (mount p) = Some e -> isSwitchOn e = true.
Proof.
  unfold mount. rewrite saved_sync. simpl.
  destruct (isSwitchOn (effectivePrivileges p)) eqn:Hon; [| discriminate].
  intros H. inversion H. now subst.
Qed.

Lemma reachable_savedPrivileges (st : State) :
  reachable st ->
  forall e, savedPrivileges st = Some e -> isSwitchOn e = true.
Proof.
  induction 1 as [p | st ev Hreach IH Hallowed]; intros e Hsaved.
  - eapply mount_savedPrivileges; eassumption.
  - destruct (step_savedPrivileges st ev Hallowed) as [Hsame | [Hnew Hon]].
    + apply IH. congruence.
    + rewrite Hnew in Hsaved. inversion Hsaved. now subst.
Qed.

(** C3. In every state the component reaches (the switch is controlled by
    [isSwitchOn], so it only asks to be turned off while it is on), each
    step either leaves [savedPrivileges] as it was or overwrites it with
    effective privileges that are non-empty for some role, and
    [savedPrivileges] is never the all-empty value. *)
Theorem savedPrivileges_never_empty (st : State) :
  reachable st ->
  savedPrivileges st <> Some emptyPrivileges
  /\ forall ev, switchAllows st ev ->
       savedPrivileges (step st ev) = savedPrivileges st
       \/ (savedPrivileges (step st ev)
           = Some (effectivePrivileges (props (step st ev)))
           /\ exists r,
               get_role r (effectivePrivileges (props (step st ev))) <> []).
Proof.
  intros Hreach. split.
  - intros Hsaved. apply reachable_savedPrivileges with (e := emptyPrivileges) in Hreach;
      [discriminate | assumption].
  - intros ev Hallowed.
    destruct (step_savedPrivileges st ev Hallowed) as [Hsame | [Hnew Hon]];
      [left; assumption | right].
    split; [assumption |]. now apply isSwitchOn_true_iff.
Qed.

Lemma savedPrivileges_never_empty_witness :
  let st := step (step (mount (existingTable (Some anonSelectsRemote)))
                    (MasterToggle false))
              (Rerender switchedOff) in
  savedPrivileges st <> Some emptyPrivileges
  /\ forall ev, switchAllows st ev ->
       savedPrivileges (step st ev) = savedPrivileges st
       \/ (savedPrivileges (step st ev)
           = Some (effectivePrivileges (props (step st ev)))
           /\ exists r,
               get_role r (effectivePrivileges (props (step st ev))) <> []).
Proof.
  apply savedPrivileges_never_empty.
  apply reachable_step; [| exact I].
  apply reachable_step; [| reflexivity].
  apply reachable_mount.
Defined.

(** The guarantee rests on the switch being controlled, not on the handler:
    called with [false] while the switch is off, an event the switch never
    sends and [switchAllows] excludes, the handler stores the all-empty
    value. *)
Lemma savedPrivileges_collapses :
  let st := step (step (mount (existingTable (Some anonSelectsRemote)))
                    (MasterToggle false))
              (Rerender switchedOff) in
  isSwitchOn (effectivePrivileges (props st)) = false
  /\ savedPrivileges st = Some anonSelects
  /\ savedPrivileges (fst (handleMasterToggle st false)) = Some emptyPrivileges
  /\ savedPrivileges (step st (MasterToggle false)) = Some emptyPrivileges.
Proof. repeat split. Qed.

(** *** The partial-privileges mark *)









Example hasPartialPrivileges_anonSelects :
  hasPartialPrivileges anonSelects = true.
Proof. reflexivity. Qed.

(** The privileges fetched for the sample table [notes], where two grantors
    gave [anon] the same privileges. *)
Example mapPrivileges_notes :
  privileges (mapPrivilegesToApiAccess (Some payload) (Some 23%Z) None None)
  = {| anon := ["SELECT"; "INSERT"; "UPDATE"; "DELETE";
                "SELECT"; "INSERT"; "UPDATE"; "DELETE"];
       authenticated := [] |}.
Proof. reflexivity. Qed.


End ToggleFacts.

Module RealtimeFacts.
Import Realtime.

Lemma variant_eqb_eq a b : variant_eqb a b = true <-> a = b.
Proof. destruct a, b; simpl; split; congruence. Qed.

Lemma activeVariant_Some (i : Inputs) (v : RealtimeButtonVariant) :
  activeVariant i = Some v <->
  IS_PLATFORM i = true /\ isTable i = Some true
  /\ realtimeButtonVariant i = Some v /\ v <> CONTROL.
Proof.
  destruct i as [platform table flag]. unfold activeVariant. simpl. split.
  - destruct platform; [| discriminate].
    destruct table as [[] |]; simpl; try discriminate.
    destruct flag as [w |]; [| discriminate].
    destruct (variant_eqb w CONTROL) eqn:Hw; simpl; [discriminate |].
    intros H. inversion H. subst w. repeat split.
    intros ->. discriminate.
  - intros (-> & -> & -> & Hv). simpl.
    destruct (variant_eqb v CONTROL) eqn:Hw; [| reflexivity].
    apply variant_eqb_eq in Hw. contradiction.
Qed.

(** C10. The active variant is never the control variant; it is a variant
    [v] exactly when the studio runs on the platform, the context is a
    table and the flag resolved to [v], a variant other than the control;
    it is null in every other case. *)
Theorem activeVariant_never_control (i : Inputs) :
  activeVariant i <> Some CONTROL
  /\ (forall v, activeVariant i = Some v <->
                IS_PLATFORM i = true /\ isTable i = Some true
                /\ realtimeButtonVariant i = Some v /\ v <> CONTROL)
  /\ (activeVariant i = None <->
      ~ (IS_PLATFORM i = true /\ isTable i = Some true
         /\ exists v, realtimeButtonVariant i = Some v /\ v <> CONTROL)).
Proof.
  split; [| split].
  - intros H. apply activeVariant_Some in H. now destruct H as (_ & _ & _ & H).
  - intros v. apply activeVariant_Some.
  - split.
    + intros Hnone (Hp & Ht & v & Hf & Hv).
      assert (activeVariant i = Some v) as Hs
        by (apply activeVariant_Some; auto).
      congruence.
    + intros Hnot. destruct (activeVariant i) as [v |] eqn:Ha; [| reflexivity].
      exfalso. apply Hnot. apply activeVariant_Some in Ha.
      destruct Ha as (Hp & Ht & Hf & Hv). eauto.
Qed.

End RealtimeFacts.

Module MutationFacts.
Import Query Mutation Samples.

Lemma privilegesToRevoke_In (rolePrivileges : list ApiPrivilegeType) (k : string) :
  In k (privilegesToRevoke rolePrivileges) <->
  In k API_PRIVILEGE_TYPES /\ ~ In k rolePrivileges.
Proof.
  unfold privilegesToRevoke. rewrite filter_In, negb_true_iff, includes_false.
  reflexivity.
Qed.

Lemma privilegesToRevoke_nil : privilegesToRevoke [] = API_PRIVILEGE_TYPES.
Proof. reflexivity. Qed.

Lemma privilegeType_grantsOf role relationId types :
  map privilegeType (grantsOf role relationId types) = types.
Proof.
  unfold grantsOf. rewrite map_map. simpl. apply map_id.
Qed.

Lemma isGrantee_grantsOf_same role relationId types :
  filter (isGrantee role) (grantsOf role relationId types)
  = grantsOf role relationId types.
Proof.
  induction types as [| t types IH]; [reflexivity |].
  simpl. unfold isGrantee at 1. simpl. rewrite String.eqb_refl.
  f_equal. exact IH.
Qed.

Lemma isGrantee_grantsOf_other role role' relationId types :
  role <> role' ->
  filter (isGrantee role) (grantsOf role' relationId types) = [].
Proof.
  intros Hne. induction types as [| t types IH]; [reflexivity |].
  simpl. unfold isGrantee at 1. simpl.
  destruct (String.eqb_spec (role_name role') (role_name role)) as [Heq | _].
  - apply QueryFacts.role_name_inj in Heq. congruence.
  - exact IH.
Qed.

Lemma length_zero_ltb {A : Type} (l : list A) :
  (0 <? List.length l)%nat = false -> l = [].
Proof. destruct l; [reflexivity | discriminate]. Qed.

(** What one turn of the loop hands to [revoke] and to [grant]. *)
Lemma revokedFor_roleCalls_same relationId privileges role :
  revokedFor role (roleCalls relationId privileges role)
  = privilegesToRevoke (get_role role privileges).
Proof.
  unfold roleCalls, revokedFor. rewrite flat_map_app.
  set (toRevoke := privilegesToRevoke (get_role role privileges)).
  set (toGrant := privilegesToGrant (get_role role privileges)).
  assert (forall b : bool,
             flat_map (fun c => match c with
                                | Revoke grants =>
                                    map privilegeType (filter (isGrantee role) grants)
                                | Grant _ => []
                                end)
               (if b then [Grant (grantsOf role relationId toGrant)] else []) = [])
    as Hgrant by (now intros []).
  rewrite Hgrant, app_nil_r.
  destruct (0 <? List.length toRevoke)%nat eqn:Hlen.
  - simpl. rewrite app_nil_r, isGrantee_grantsOf_same.
    apply privilegeType_grantsOf.
  - apply length_zero_ltb in Hlen. now rewrite Hlen.
Qed.

Lemma grantedFor_roleCalls_same relationId privileges role :
  grantedFor role (roleCalls relationId privileges role)
  = get_role role privileges.
Proof.
  unfold roleCalls, grantedFor. rewrite flat_map_app.
  set (toRevoke := privilegesToRevoke (get_role role privileges)).
  unfold privilegesToGrant.
  assert (forall b : bool,
             flat_map (fun c => match c with
                                | Grant grants =>
                                    map privilegeType (filter (isGrantee role) grants)
                                | Revoke _ => []
                                end)
               (if b then [Revoke (grantsOf role relationId toRevoke)] else []) = [])
    as Hrevoke by (now intros []).
  rewrite Hrevoke. simpl.
  destruct (0 <? List.length (get_role role privileges))%nat eqn:Hlen.
  - simpl. rewrite app_nil_r, isGrantee_grantsOf_same.
    apply privilegeType_grantsOf.
  - apply length_zero_ltb in Hlen. now rewrite Hlen.
Qed.

Lemma revokedFor_roleCalls_other relationId privileges role role' :
  role <> role' ->
  revokedFor role (roleCalls relationId privileges role') = [].
Proof.
  intros Hne. unfold roleCalls, revokedFor. rewrite flat_map_app.
  destruct (0 <? List.length (privilegesToRevoke (get_role role' privileges)))%nat,
           (0 <? List.length (privilegesToGrant (get_role role' privileges)))%nat;
    simpl; rewrite ?isGrantee_grantsOf_other by assumption; reflexivity.
Qed.

Lemma grantedFor_roleCalls_other relationId privileges role role' :
  role <> role' ->
  grantedFor role (roleCalls relationId privileges role') = [].
Proof.
  intros Hne. unfold roleCalls, grantedFor. rewrite flat_map_app.
  destruct (0 <? List.length (privilegesToRevoke (get_role role' privileges)))%nat,
           (0 <? List.length (privilegesToGrant (get_role role' privileges)))%nat;
    simpl; rewrite ?isGrantee_grantsOf_other by assumption; reflexivity.
Qed.

Lemma revokedFor_app role calls calls' :
  revokedFor role (calls ++ calls')
  = (revokedFor role calls ++ revokedFor role calls')%list.
Proof. unfold revokedFor. apply flat_map_app. Qed.

Lemma grantedFor_app role calls calls' :
  grantedFor role (calls ++ calls')
  = (grantedFor role calls ++ grantedFor role calls')%list.
Proof. unfold grantedFor. apply flat_map_app. Qed.

Lemma revokedFor_pgMetaCalls relationId privileges role :
  revokedFor role (pgMetaCalls relationId privileges)
  = privilegesToRevoke (get_role role privileges).
Proof.
  unfold pgMetaCalls, API_ACCESS_ROLES. simpl flat_map.
  rewrite app_nil_r, revokedFor_app.
  destruct role.
  - rewrite revokedFor_roleCalls_same.
    rewrite revokedFor_roleCalls_other by discriminate. apply app_nil_r.
  - rewrite revokedFor_roleCalls_same.
    rewrite revokedFor_roleCalls_other by discriminate. reflexivity.
Qed.

Lemma grantedFor_pgMetaCalls relationId privileges role :
  grantedFor role (pgMetaCalls relationId privileges)
  = get_role role privileges.
Proof.
  unfold pgMetaCalls, API_ACCESS_ROLES. simpl flat_map.
  rewrite app_nil_r, grantedFor_app.
  destruct role.
  - rewrite grantedFor_roleCalls_same.
    rewrite grantedFor_roleCalls_other by discriminate. apply app_nil_r.
  - rewrite grantedFor_roleCalls_same.
    rewrite grantedFor_roleCalls_other by discriminate. reflexivity.
Qed.

(** C5. On every call of the mutation and for every role, the privilege
    types handed to [revoke] for that role are exactly the kinds of the fixed
    set that are not in the role's desired list, and those handed to [grant]
    are exactly the desired list. *)
Theorem revoke_complement_grant_desired
  (relationId : Z) (privileges : ApiPrivilegesPerRole) (role : ApiAccessRole) :
  let calls := pgMetaCalls relationId privileges in
  (forall k, In k (revokedFor role calls) <->
             In k API_PRIVILEGE_TYPES /\ ~ In k (get_role role privileges))
  /\ revokedFor role calls
     = filter (fun k => negb (includes (get_role role privileges) k))
         API_PRIVILEGE_TYPES
  /\ grantedFor role calls = get_role role privileges.
Proof.
  intros calls. unfold calls.
  rewrite revokedFor_pgMetaCalls, grantedFor_pgMetaCalls.
  split; [| split; reflexivity].
  intros k. apply privilegesToRevoke_In.
Qed.

Example pgMetaCalls_anonSelects :
  pgMetaCalls 17 anonSelects
  = [ Revoke [ {| grantee := "anon"; privilegeType := "INSERT"; relationId := 17 |};
               {| grantee := "anon"; privilegeType := "UPDATE"; relationId := 17 |};
               {| grantee := "anon"; privilegeType := "DELETE"; relationId := 17 |} ];
      Grant [ {| grantee := "anon"; privilegeType := "SELECT"; relationId := 17 |} ];
      Revoke [ {| grantee := "authenticated"; privilegeType := "SELECT"; relationId := 17 |};
               {| grantee := "authenticated"; privilegeType := "INSERT"; relationId := 17 |};
               {| grantee := "authenticated"; privilegeType := "UPDATE"; relationId := 17 |};
               {| grantee := "authenticated"; privilegeType := "DELETE"; relationId := 17 |} ] ].
Proof. reflexivity. Qed.

Lemma roleCalls_nonempty relationId privileges role :
  roleCalls relationId privileges role <> [].
Proof.
  unfold roleCalls, privilegesToGrant.
  destruct (get_role role privileges) as [| d rest].
  - rewrite privilegesToRevoke_nil. discriminate.
  - destruct (0 <? List.length (privilegesToRevoke (d :: rest)))%nat;
      discriminate.
Qed.

(** C4, as the mutation has it. The mutation receives the desired
    privileges only and compares them with nothing: for every role it asks
    for a revoke statement exactly when some kind of the fixed set is
    missing from the role's desired list, and for a grant statement exactly
    when the desired list is not empty. So every role contributes at least
    one statement request on every call. *)
Theorem every_role_issues
  (relationId : Z) (privileges : ApiPrivilegesPerRole) (role : ApiAccessRole) :
  roleCalls relationId privileges role <> []
  /\ ((exists grants, In (Revoke grants) (roleCalls relationId privileges role)) <->
      exists k, In k API_PRIVILEGE_TYPES /\ ~ In k (get_role role privileges))
  /\ ((exists grants, In (Grant grants) (roleCalls relationId privileges role)) <->
      get_role role privileges <> [])
  /\ incl (roleCalls relationId privileges role) (pgMetaCalls relationId privileges).
Proof.
  unfold roleCalls, privilegesToGrant.
  set (desired := get_role role privileges).
  set (toRevoke := privilegesToRevoke desired).
  assert ((exists k, In k API_PRIVILEGE_TYPES /\ ~ In k desired) <-> toRevoke <> [])
    as Hcomplement.
  { split.
    - intros [k Hk] Hnil. apply privilegesToRevoke_In in Hk.
      fold toRevoke in Hk. rewrite Hnil in Hk. contradiction.
    - intros Hne. destruct toRevoke as [| k rest] eqn:Heq; [contradiction |].
      exists k. apply privilegesToRevoke_In. fold toRevoke. rewrite Heq.
      now left. }
  split; [| split; [| split]].
  - apply roleCalls_nonempty.
  - rewrite Hcomplement. split.
    + intros [grants Hin] Hnil. rewrite Hnil in Hin. simpl in Hin.
      destruct (0 <? List.length desired)%nat; simpl in Hin;
        intuition discriminate.
    + intros Hne. destruct toRevoke as [| k rest]; [contradiction |].
      eexists. simpl. left. reflexivity.
  - split.
    + intros [grants Hin] Hnil. rewrite Hnil in Hin. simpl in Hin.
      rewrite app_nil_r in Hin.
      destruct (0 <? List.length toRevoke)%nat; simpl in Hin;
        intuition discriminate.
    + intros Hne. destruct desired as [| d rest]; [contradiction |].
      eexists. apply in_or_app. right. simpl. left. reflexivity.
  - intros c Hc. unfold pgMetaCalls. apply in_flat_map. exists role. split.
    + destruct role; simpl; auto.
    + exact Hc.
Qed.

(** C4, as stated, fails: with desired privileges equal to the current
    ones, the one the server holds for the sample table, both roles still
    contribute statement requests. *)
Lemma unchanged_role_still_issues :
  let current := anonSelects in
  let desired := anonSelects in
  get_role role_anon desired = get_role role_anon current
  /\ get_role role_authenticated desired = get_role role_authenticated current
  /\ roleCalls 17 desired role_anon
     = [ Revoke (grantsOf role_anon 17 ["INSERT"; "UPDATE"; "DELETE"]);
         Grant (grantsOf role_anon 17 ["SELECT"]) ]
  /\ roleCalls 17 desired role_authenticated
     = [ Revoke (grantsOf role_authenticated 17
                   ["SELECT"; "INSERT"; "UPDATE"; "DELETE"]) ].
Proof. repeat split. Qed.

Section Sql.
Variables revokeSql grantSql : list TablePrivilegesGrant -> string.

(** Every statement of the batch is the text of one of the requests. *)
Lemma sqlStatements_from_calls relationId privileges statement :
  In statement (sqlStatements revokeSql grantSql relationId privileges) ->
  exists c, In c (pgMetaCalls relationId privileges)
            /\ callSql revokeSql grantSql c = statement
            /\ statement <> "".
Proof.
  unfold sqlStatements. rewrite filter_In, in_map_iff.
  intros [[c [Hsql Hin]] Htruthy]. exists c. repeat split; try assumption.
  intros Hempty. rewrite Hempty in Htruthy. discriminate.
Qed.

(** With generators that never answer an empty text, every role has a
    statement in the batch on every call, and the mutation always runs. *)
Hypothesis revokeSql_truthy : forall grants, revokeSql grants <> "".
Hypothesis grantSql_truthy : forall grants, grantSql grants <> "".

Lemma callSql_truthy c : truthy_string (callSql revokeSql grantSql c) = true.
Proof.
  unfold truthy_string. apply negb_true_iff.
  destruct c as [grants | grants]; simpl; apply String.eqb_neq; auto.
Qed.

Lemma sqlStatements_all relationId privileges :
  sqlStatements revokeSql grantSql relationId privileges
  = map (callSql revokeSql grantSql) (pgMetaCalls relationId privileges).
Proof.
  unfold sqlStatements.
  induction (pgMetaCalls relationId privileges) as [| c calls IH];
    [reflexivity |].
  simpl. rewrite callSql_truthy. f_equal. exact IH.
Qed.

Lemma update_always_runs relationId privileges :
  updateTableApiAccessPrivileges revokeSql grantSql relationId privileges
  <> None.
Proof.
  unfold updateTableApiAccessPrivileges. rewrite sqlStatements_all.
  rewrite length_map.
  destruct (pgMetaCalls relationId privileges) as [| c calls] eqn:Hcalls.
  - exfalso. apply (roleCalls_nonempty relationId privileges role_anon).
    unfold pgMetaCalls in Hcalls. simpl in Hcalls.
    apply app_eq_nil in Hcalls. tauto.
  - simpl. discriminate.
Qed.
End Sql.

End MutationFacts.


(* ===================================================================== *)
(** ** More about the query *)

Module QueryMore.
Import Query QueryOptions Js Samples MoreSamples.

Lemma find_all_false {A : Type} (f : A -> bool) (l : list A) :
  (forall x, In x l -> f x = false) -> find f l = None.
Proof.
  induction l as [| x l IH]; intros H; [reflexivity |].
  simpl. rewrite (H x (or_introl eq_refl)). apply IH.
  intros y Hy. apply H. now right.
Qed.

Lemma find_first {A : Type} (f : A -> bool) (pre post : list A) (x : A) :
  (forall y, In y pre -> f y = false) -> f x = true ->
  find f (pre ++ x :: post)%list = Some x.
Proof.
  induction pre as [| y pre IH]; intros Hpre Hx; simpl.
  - now rewrite Hx.
  - rewrite (Hpre y (or_introl eq_refl)). apply IH; [| assumption].
    intros z Hz. apply Hpre. now right.
Qed.

(** The result only depends on the rows of the target. *)
Lemma mapPrivileges_of_rows data data' relationId relationId'
  schema schema' tableName tableName' :
  allPrivileges data relationId schema tableName
  = allPrivileges data' relationId' schema' tableName' ->
  mapPrivilegesToApiAccess data relationId schema tableName
  = mapPrivilegesToApiAccess data' relationId' schema' tableName'.
Proof. intros H. unfold mapPrivilegesToApiAccess. now rewrite H. Qed.

Lemma allPrivileges_none (data : option TablePrivilegesData)
  (relationId : option Z) (schema tableName : option string) :
  (forall entry, In entry (nullish data []) ->
                 isTarget relationId schema tableName entry = false) ->
  allPrivileges data relationId schema tableName = [].
Proof.
  intros Hnone. unfold allPrivileges.
  now rewrite (find_all_false _ _ Hnone).
Qed.

Lemma mapPrivileges_no_rows (data : option TablePrivilegesData)
  (relationId : option Z) (schema tableName : option string) :
  allPrivileges data relationId schema tableName = [] ->
  mapPrivilegesToApiAccess data relationId schema tableName = noAccess.
Proof.
  intros Hrows. unfold mapPrivilegesToApiAccess. now rewrite Hrows.
Qed.

(** X1. [hasApiAccess] is the value the component's switch computes from the
    fetched privileges, and it holds exactly when some role has some kind. *)
Theorem hasApiAccess_is_switch
  (data : option TablePrivilegesData) (relationId : option Z)
  (schema tableName : option string) :
  let remote := mapPrivilegesToApiAccess data relationId schema tableName in
  hasApiAccess remote = Toggle.isSwitchOn (privileges remote)
  /\ (hasApiAccess remote = true <->
      exists role k, In k (get_role role (privileges remote))).
Proof.
  intros remote.
  assert (hasApiAccess remote = Toggle.isSwitchOn (privileges remote)) as Heq.
  { unfold remote, mapPrivilegesToApiAccess, Toggle.isSwitchOn. simpl.
    now rewrite orb_false_r. }
  split; [exact Heq |].
  rewrite Heq, ToggleFacts.isSwitchOn_true_iff. split.
  - intros [role Hne]. exists role.
    destruct (get_role role (privileges remote)) as [| k rest];
      [contradiction |].
    exists k. now left.
  - intros [role [k Hin]]. exists role. intros Hnil.
    rewrite Hnil in Hin. contradiction.
Qed.

(** X2. When no entry of the payload is the target (no payload at all
    included), the result is no access and no privilege for any role. *)
Theorem no_target_no_access
  (data : option TablePrivilegesData) (relationId : option Z)
  (schema tableName : option string) :
  (forall entry, In entry (nullish data []) ->
                 isTarget relationId schema tableName entry = false) ->
  mapPrivilegesToApiAccess data relationId schema tableName = noAccess.
Proof.
  intros Hnone. now apply mapPrivileges_no_rows, allPrivileges_none.
Qed.

Lemma no_target_no_access_witness :
  mapPrivilegesToApiAccess (Some payload) (Some 99%Z) None None = noAccess.
Proof.
  apply no_target_no_access.
  intros entry [<- | [<- | []]]; reflexivity.
Defined.

(** X3. A relation id other than 0 decides the target alone: the schema and
    the table name are not read. The id 0 counts as no id: the target is
    then found by schema and name. *)
Theorem relationId_precedence
  (data : option TablePrivilegesData) (id : Z)
  (schema tableName schema' tableName' : option string) :
  (id <> 0%Z ->
   mapPrivilegesToApiAccess data (Some id) schema tableName
   = mapPrivilegesToApiAccess data (Some id) schema' tableName')
  /\ mapPrivilegesToApiAccess data (Some 0%Z) schema tableName
     = mapPrivilegesToApiAccess data None schema tableName.
Proof.
  split; [| reflexivity].
  intros Hid. apply mapPrivileges_of_rows. unfold allPrivileges.
  replace (isTarget (Some id) schema tableName)
    with (isTarget (Some id) schema' tableName'); [reflexivity |].
  unfold isTarget, truthy_number.
  destruct (Z.eqb_spec id 0); [contradiction | reflexivity].
Qed.

Lemma relationId_precedence_witness :
  mapPrivilegesToApiAccess (Some payload) (Some 17%Z) (Some "public") (Some "notes")
  = mapPrivilegesToApiAccess (Some payload) (Some 17%Z) None None.
Proof.
  apply (proj1 (relationId_precedence (Some payload) 17
                  (Some "public") (Some "notes") None None)).
  discriminate.
Defined.

(** X4. The first entry that matches is the target: what comes after it in
    the payload, matching or not, changes nothing. *)
Theorem first_match_wins
  (pre post : list Remote.Entry) (entry : Remote.Entry)
  (relationId : option Z) (schema tableName : option string) :
  (forall e, In e pre -> isTarget relationId schema tableName e = false) ->
  isTarget relationId schema tableName entry = true ->
  mapPrivilegesToApiAccess (Some (pre ++ entry :: post)%list) relationId schema tableName
  = mapPrivilegesToApiAccess (Some [entry]) relationId schema tableName.
Proof.
  intros Hpre Hentry. apply mapPrivileges_of_rows. unfold allPrivileges.
  simpl nullish. rewrite (find_first _ pre post entry Hpre Hentry).
  simpl. now rewrite Hentry.
Qed.

Lemma first_match_wins_witness :
  mapPrivilegesToApiAccess (Some ([todos] ++ notes :: [notes; todos])%list)
    (Some 23%Z) None None
  = mapPrivilegesToApiAccess (Some [notes]) (Some 23%Z) None None.
Proof.
  apply first_match_wins.
  - intros e [<- | []]. reflexivity.
  - reflexivity.
Defined.

(** X5. Without a valid target (no relation id, and the schema or the table
    name missing or empty), a payload whose entries all have a schema and a
    name gives no access: the mapping agrees with the guard that keeps the
    query from running. *)
Theorem invalid_target_no_access
  (v : TableApiAccessVariables) (data : option TablePrivilegesData) :
  hasValidTarget v = false ->
  (forall entry, In entry (nullish data []) ->
                 Remote.schema entry <> "" /\ Remote.name entry <> "") ->
  select v data = noAccess
  /\ forall enabled, queryEnabled v enabled = false.
Proof.
  intros Hvalid Hnamed. split.
  - unfold select. apply mapPrivileges_no_rows, allPrivileges_none.
    intros entry Hentry.
    destruct (Hnamed entry Hentry) as [Hschema Hname].
    unfold hasValidTarget in Hvalid. apply orb_false_iff in Hvalid.
    destruct Hvalid as [Hid Hnames]. unfold isTarget. rewrite Hid.
    apply andb_false_iff in Hnames. apply andb_false_iff.
    destruct Hnames as [Hs | Hn]; [left | right].
    + destruct (schema v) as [s |]; [| reflexivity]. simpl in *.
      apply negb_false_iff, String.eqb_eq in Hs. subst s.
      now apply String.eqb_neq.
    + destruct (tableName v) as [n |]; [| reflexivity]. simpl in *.
      apply negb_false_iff, String.eqb_eq in Hn. subst n.
      now apply String.eqb_neq.
  - intros enabled. unfold queryEnabled. rewrite Hvalid.
    apply andb_false_r.
Qed.

Lemma invalid_target_no_access_witness :
  select byName (Some payload) = noAccess
  /\ forall enabled, queryEnabled byName enabled = false.
Proof.
  apply invalid_target_no_access.
  - reflexivity.
  - intros entry [<- | [<- | []]]; split; discriminate.
Defined.

End QueryMore.

(* ===================================================================== *)
(** ** More about the mutation *)

Module MutationMore.
Import Query Mutation Samples MoreSamples.

(** X6. For every role, no kind is both revoked and granted in one call of
    the mutation, and every kind of the fixed set is revoked or granted:
    after the call the role's standing on each of the four kinds is
    decided. *)
Theorem revoke_grant_partition
  (relationId : Z) (privileges : ApiPrivilegesPerRole) (role : ApiAccessRole) :
  let calls := pgMetaCalls relationId privileges in
  (forall k, ~ (In k (revokedFor role calls) /\ In k (grantedFor role calls)))
  /\ (forall k, In k API_PRIVILEGE_TYPES ->
                In k (revokedFor role calls) \/ In k (grantedFor role calls)).
Proof.
  intros calls. unfold calls.
  rewrite MutationFacts.revokedFor_pgMetaCalls,
    MutationFacts.grantedFor_pgMetaCalls.
  split.
  - intros k [Hrevoked Hgranted].
    apply MutationFacts.privilegesToRevoke_In in Hrevoked. tauto.
  - intros k Hfixed.
    destruct (includes (get_role role privileges) k) eqn:Hin.
    + right. now apply includes_In.
    + left. apply MutationFacts.privilegesToRevoke_In.
      split; [assumption | now apply includes_false].
Qed.

(** X7. A role's turn asks for a revoke alone, a grant alone, or a revoke
    followed by a grant; the mutation makes the requests of [anon] before
    those of [authenticated], between two and four in all. *)
Theorem pgMetaCalls_shape (relationId : Z) (privileges : ApiPrivilegesPerRole) :
  (forall role,
      let calls := roleCalls relationId privileges role in
      let toRevoke := grantsOf role relationId
                        (privilegesToRevoke (get_role role privileges)) in
      let toGrant := grantsOf role relationId (get_role role privileges) in
      calls = [Revoke toRevoke] \/ calls = [Grant toGrant]
      \/ calls = [Revoke toRevoke; Grant toGrant])
  /\ pgMetaCalls relationId privileges
     = (roleCalls relationId privileges role_anon
        ++ roleCalls relationId privileges role_authenticated)%list
  /\ (2 <= List.length (pgMetaCalls relationId privileges) <= 4)%nat.
Proof.
  assert (forall role,
             let calls := roleCalls relationId privileges role in
             let toRevoke := grantsOf role relationId
                               (privilegesToRevoke (get_role role privileges)) in
             let toGrant := grantsOf role relationId (get_role role privileges) in
             calls = [Revoke toRevoke] \/ calls = [Grant toGrant]
             \/ calls = [Revoke toRevoke; Grant toGrant]) as Hshape.
  { intros role. unfold roleCalls, privilegesToGrant.
    destruct (get_role role privileges) as [| d rest].
    - left. reflexivity.
    - destruct (0 <? List.length (privilegesToRevoke (d :: rest)))%nat;
        simpl; auto. }
  assert (pgMetaCalls relationId privileges
          = (roleCalls relationId privileges role_anon
             ++ roleCalls relationId privileges role_authenticated)%list)
    as Hsplit.
  { unfold pgMetaCalls. simpl. now rewrite app_nil_r. }
  split; [exact Hshape |]. split; [exact Hsplit |].
  rewrite Hsplit, length_app.
  destruct (Hshape role_anon) as [Ha | [Ha | Ha]];
    destruct (Hshape role_authenticated) as [Hb | [Hb | Hb]];
    rewrite Ha, Hb; simpl; lia.
Qed.

Lemma filter_length_zero {A : Type} (f : A -> bool) (l : list A) :
  List.length (filter f l) = 0%nat <-> forall x, In x l -> f x = false.
Proof.
  induction l as [| x l IH]; simpl.
  - split; [intros _ y [] | reflexivity].
  - destruct (f x) eqn:Hx; simpl.
    + split; [discriminate |]. intros H.
      specialize (H x (or_introl eq_refl)). congruence.
    + rewrite IH. split.
      * intros H y [<- | Hy]; [assumption | now apply H].
      * intros H y Hy. apply H. now right.
Qed.

Section Sql.
Variables revokeSql grantSql : list TablePrivilegesGrant -> string.

(** X8. The mutation returns [null] without executing anything exactly when
    pg-meta answers an empty text to every request; otherwise it executes
    the non-empty texts, in the order of the requests, one per line. *)
Theorem update_null_iff (relationId : Z) (privileges : ApiPrivilegesPerRole) :
  (updateTableApiAccessPrivileges revokeSql grantSql relationId privileges = None
   <-> forall c, In c (pgMetaCalls relationId privileges) ->
                 callSql revokeSql grantSql c = "")
  /\ (forall sql,
         updateTableApiAccessPrivileges revokeSql grantSql relationId privileges
         = Some sql ->
         sql = join newline
                 (filter truthy_string
                    (map (callSql revokeSql grantSql)
                       (pgMetaCalls relationId privileges)))).
Proof.
  unfold updateTableApiAccessPrivileges, sqlStatements. split.
  - destruct (Nat.eqb_spec
                (List.length
                   (filter truthy_string
                      (map (callSql revokeSql grantSql)
                         (pgMetaCalls relationId privileges)))) 0) as [Hz | Hnz].
    + split; [intros _ | reflexivity].
      intros c Hc. apply filter_length_zero with (x := callSql revokeSql grantSql c) in Hz.
      * unfold truthy_string in Hz. apply negb_false_iff in Hz.
        now apply String.eqb_eq.
      * now apply in_map.
    + split; [discriminate |]. intros Hempty. exfalso. apply Hnz.
      apply filter_length_zero. intros text Htext.
      apply in_map_iff in Htext. destruct Htext as [c [<- Hc]].
      rewrite (Hempty c Hc). reflexivity.
  - intros sql.
    destruct (List.length _ =? 0)%nat; [discriminate |].
    intros H. now inversion H.
Qed.
End Sql.

(** X9. With the schema exposed, the edit emitted by switching off makes the
    mutation revoke the four kinds from both roles and grant nothing; the
    edit emitted by switching on when nothing was saved makes it grant the
    four kinds to both roles and revoke nothing. *)
Theorem master_toggle_requests (st : Toggle.State) (relationId : Z) :
  Toggle.isSchemaExposed (Toggle.props st) = true ->
  (exists off,
      Toggle.emitted st (Toggle.MasterToggle false) = Some off
      /\ pgMetaCalls relationId off
         = [ Revoke (grantsOf role_anon relationId API_PRIVILEGE_TYPES);
             Revoke (grantsOf role_authenticated relationId API_PRIVILEGE_TYPES) ])
  /\ (Toggle.savedPrivileges st = None ->
      exists on,
        Toggle.emitted st (Toggle.MasterToggle true) = Some on
        /\ pgMetaCalls relationId on
           = [ Grant (grantsOf role_anon relationId API_PRIVILEGE_TYPES);
               Grant (grantsOf role_authenticated relationId API_PRIVILEGE_TYPES) ]).
Proof.
  intros Hexposed.
  unfold Toggle.emitted, Toggle.handle, Toggle.handleMasterToggle.
  rewrite Hexposed. simpl. split.
  - eexists. split; reflexivity.
  - intros Hsaved. rewrite Hsaved. eexists. split; reflexivity.
Qed.

Lemma master_toggle_requests_witness :
  (exists off,
      Toggle.emitted (Toggle.mount switchedOff) (Toggle.MasterToggle false) = Some off
      /\ pgMetaCalls 17 off
         = [ Revoke (grantsOf role_anon 17 API_PRIVILEGE_TYPES);
             Revoke (grantsOf role_authenticated 17 API_PRIVILEGE_TYPES) ])
  /\ (Toggle.savedPrivileges (Toggle.mount switchedOff) = None ->
      exists on,
        Toggle.emitted (Toggle.mount switchedOff) (Toggle.MasterToggle true) = Some on
        /\ pgMetaCalls 17 on
           = [ Grant (grantsOf role_anon 17 API_PRIVILEGE_TYPES);
               Grant (grantsOf role_authenticated 17 API_PRIVILEGE_TYPES) ]).
Proof.
  destruct (master_toggle_requests (Toggle.mount switchedOff) 17 eq_refl)
    as [Hoff Hon].
  split; [exact Hoff | intros _; exact (Hon eq_refl)].
Defined.

End MutationMore.

(* ===================================================================== *)
(** ** More about the component's state *)

Module ToggleMore.
Import Query Toggle Controlled ToggleView Vocabulary Samples MoreSamples.

Lemma run_is_synced (evs : list Event) (st : State) :
  (exists before, st = syncSavedPrivileges before) ->
  exists before, fold_left step evs st = syncSavedPrivileges before.
Proof.
  revert st. induction evs as [| ev evs IH]; intros st Hst; [exact Hst |].
  simpl. apply IH. unfold step. eauto.
Qed.

Lemma synced_saved (before : State) :
  isSwitchOn (effectivePrivileges (props (syncSavedPrivileges before))) = true ->
  savedPrivileges (syncSavedPrivileges before)
  = Some (effectivePrivileges (props (syncSavedPrivileges before))).
Proof.
  rewrite ToggleFacts.props_sync, ToggleFacts.saved_sync.
  intros Hon. now rewrite Hon.
Qed.

(** The handlers leave the props alone. *)
Lemma handler_props (st : State) (ev : Event) (e : ApiPrivilegesPerRole) :
  emitted st ev = Some e -> props (step st ev) = props st.
Proof.
  unfold emitted, step. rewrite ToggleFacts.props_sync.
  destruct ev as [checked | role values | p]; simpl.
  - unfold handleMasterToggle.
    destruct (isSchemaExposed (props st)); [| discriminate].
    now destruct checked.
  - unfold handlePrivilegesChange.
    now destruct (isSchemaExposed (props st)).
  - discriminate.
Qed.

Lemma emitted_exposed (st : State) (ev : Event) (e : ApiPrivilegesPerRole) :
  emitted st ev = Some e -> isSchemaExposed (props st) = true.
Proof.
  unfold emitted.
  destruct ev as [checked | role values | p]; simpl.
  - unfold handleMasterToggle.
    now destruct (isSchemaExposed (props st)).
  - unfold handlePrivilegesChange.
    now destruct (isSchemaExposed (props st)).
  - discriminate.
Qed.

Lemma keep_props (st : State) (ev : Event) (e : ApiPrivilegesPerRole) :
  emitted st ev = Some e ->
  props (keep st ev) = withEdit (Some e) (props st).
Proof.
  intros Hemit. unfold keep.
  unfold step at 1. rewrite ToggleFacts.props_sync. simpl.
  now rewrite Hemit, (handler_props st ev e Hemit).
Qed.

Lemma keep_effective (st : State) (ev : Event) (e : ApiPrivilegesPerRole) :
  emitted st ev = Some e ->
  effectivePrivileges (props (keep st ev)) = e
  /\ isSchemaExposed (props (keep st ev)) = true.
Proof.
  intros Hemit. rewrite (keep_props st ev e Hemit).
  pose proof (emitted_exposed st ev e Hemit) as Hexposed.
  split; [now apply ToggleFacts.effectivePrivileges_withEdit | exact Hexposed].
Qed.

Lemma keep_is_synced (st : State) (ev : Event) :
  exists before, keep st ev = syncSavedPrivileges before.
Proof. unfold keep, step. eauto. Qed.

Lemma step_rerender_saved (st : State) (p : Props) :
  savedPrivileges (step st (Rerender p))
  = if isSwitchOn (effectivePrivileges p)
    then Some (effectivePrivileges p)
    else savedPrivileges st.
Proof. unfold step. now rewrite ToggleFacts.saved_sync. Qed.

Lemma emitted_change (st : State) (role : ApiAccessRole) (values : list string) :
  isSchemaExposed (props st) = true ->
  emitted st (PrivilegesChange role values)
  = Some (set_role role values (effectivePrivileges (props st))).
Proof.
  intros Hexposed. unfold emitted. simpl. unfold handlePrivilegesChange.
  now rewrite Hexposed.
Qed.

(** X10. After the mount and after every event, whatever the events, a
    switch that is on has its effective privileges saved: [savedPrivileges]
    is in step with what is shown. *)
Theorem saved_in_sync (p : Props) (evs : list Event) :
  let st := run p evs in
  isSwitchOn (effectivePrivileges (props st)) = true ->
  savedPrivileges st = Some (effectivePrivileges (props st)).
Proof.
  intros st Hon.
  destruct (run_is_synced evs (mount p)) as [before Hbefore].
  { unfold mount. eauto. }
  unfold st, run in *. rewrite Hbefore in *. now apply synced_saved.
Qed.

Lemma saved_in_sync_witness :
  savedPrivileges
    (run (existingTable (Some anonSelectsRemote))
       [PrivilegesChange role_anon []; Rerender onlyAuthenticatedTable])
  = Some onlyAuthenticated.
Proof.
  apply (saved_in_sync (existingTable (Some anonSelectsRemote))
           [PrivilegesChange role_anon []; Rerender onlyAuthenticatedTable]).
  reflexivity.
Defined.

(** X11. Along every run in which the switch is only turned off while it is
    on, with the schema exposed, switching on emits an edit that gives some
    role some privilege: once the parent keeps it the switch is on. *)
Theorem switch_on_grants (st : State) :
  reachable st ->
  isSchemaExposed (props st) = true ->
  exists e,
    emitted st (MasterToggle true) = Some e
    /\ isSwitchOn e = true
    /\ isSwitchOn (effectivePrivileges (props (keep st (MasterToggle true)))) = true.
Proof.
  intros Hreach Hexposed.
  assert (exists e, emitted st (MasterToggle true) = Some e /\ isSwitchOn e = true)
    as [e [Hemit Hon]].
  { unfold emitted, handle, handleMasterToggle. rewrite Hexposed. simpl.
    destruct (savedPrivileges st) as [saved |] eqn:Hsaved.
    - exists saved. split; [reflexivity |].
      now apply (ToggleFacts.reachable_savedPrivileges st Hreach).
    - eexists. split; reflexivity. }
  exists e. split; [exact Hemit |]. split; [exact Hon |].
  now rewrite (proj1 (keep_effective st (MasterToggle true) e Hemit)).
Qed.

Lemma switch_on_grants_witness :
  exists e,
    emitted (mount switchedOff) (MasterToggle true) = Some e
    /\ isSwitchOn e = true
    /\ isSwitchOn (effectivePrivileges
                     (props (keep (mount switchedOff) (MasterToggle true)))) = true.
Proof.
  apply switch_on_grants.
  - apply reachable_mount.
  - reflexivity.
Defined.

(** X12. Whenever a handler emits an edit and the parent keeps it, the next
    render shows exactly that edit as the effective privileges, the schema
    is still exposed, and an edit that gives some role some privilege is
    saved. *)
Theorem kept_edit_is_effective
  (st : State) (ev : Event) (e : ApiPrivilegesPerRole) :
  emitted st ev = Some e ->
  effectivePrivileges (props (keep st ev)) = e
  /\ isSchemaExposed (props (keep st ev)) = true
  /\ (isSwitchOn e = true -> savedPrivileges (keep st ev) = Some e).
Proof.
  intros Hemit. destruct (keep_effective st ev e Hemit) as [Heff Hexposed].
  split; [exact Heff |]. split; [exact Hexposed |].
  intros Hon. rewrite <- Heff in Hon |- *.
  destruct (keep_is_synced st ev) as [before Hbefore].
  rewrite Hbefore in Hon |- *. now apply synced_saved.
Qed.

Lemma kept_edit_is_effective_witness :
  effectivePrivileges
    (props (keep (mount (existingTable (Some anonSelectsRemote)))
              (PrivilegesChange role_authenticated ["SELECT"; "UPDATE"])))
  = {| anon := ["SELECT"]; authenticated := ["SELECT"; "UPDATE"] |}
  /\ isSchemaExposed
       (props (keep (mount (existingTable (Some anonSelectsRemote)))
                 (PrivilegesChange role_authenticated ["SELECT"; "UPDATE"]))) = true
  /\ (isSwitchOn {| anon := ["SELECT"]; authenticated := ["SELECT"; "UPDATE"] |} = true ->
      savedPrivileges
        (keep (mount (existingTable (Some anonSelectsRemote)))
           (PrivilegesChange role_authenticated ["SELECT"; "UPDATE"]))
      = Some {| anon := ["SELECT"]; authenticated := ["SELECT"; "UPDATE"] |}).
Proof.
  apply (kept_edit_is_effective
           (mount (existingTable (Some anonSelectsRemote)))
           (PrivilegesChange role_authenticated ["SELECT"; "UPDATE"])).
  reflexivity.
Defined.

(** X13. Under a parent that keeps the edits and with the schema exposed,
    edits of two different roles give the same privileges in either order,
    and of two edits of one role the second one stands. *)
Theorem role_edits_compose
  (st : State) (r1 r2 : ApiAccessRole) (v1 v2 : list string) :
  isSchemaExposed (props st) = true ->
  let after ev1 ev2 := effectivePrivileges (props (keep (keep st ev1) ev2)) in
  (r1 <> r2 ->
   after (PrivilegesChange r1 v1) (PrivilegesChange r2 v2)
   = after (PrivilegesChange r2 v2) (PrivilegesChange r1 v1))
  /\ after (PrivilegesChange r2 v1) (PrivilegesChange r2 v2)
     = effectivePrivileges (props (keep st (PrivilegesChange r2 v2))).
Proof.
  intros Hexposed after.
  assert (forall ra va rb vb,
             after (PrivilegesChange ra va) (PrivilegesChange rb vb)
             = set_role rb vb (set_role ra va (effectivePrivileges (props st))))
    as Hafter.
  { intros ra va rb vb. unfold after.
    destruct (keep_effective st (PrivilegesChange ra va) _
                (emitted_change st ra va Hexposed)) as [Heff1 Hexp1].
    destruct (keep_effective (keep st (PrivilegesChange ra va))
                (PrivilegesChange rb vb) _
                (emitted_change _ rb vb Hexp1)) as [Heff2 _].
    now rewrite Heff2, Heff1. }
  split.
  - intros Hne. rewrite !Hafter.
    destruct r1, r2; try contradiction; reflexivity.
  - rewrite Hafter.
    rewrite (proj1 (keep_effective st (PrivilegesChange r2 v2) _
                      (emitted_change st r2 v2 Hexposed))).
    now destruct r2.
Qed.

Lemma role_edits_compose_witness :
  let st := mount (existingTable (Some anonSelectsRemote)) in
  let after ev1 ev2 := effectivePrivileges (props (keep (keep st ev1) ev2)) in
  (role_anon <> role_authenticated ->
   after (PrivilegesChange role_anon []) (PrivilegesChange role_authenticated ["INSERT"])
   = after (PrivilegesChange role_authenticated ["INSERT"]) (PrivilegesChange role_anon []))
  /\ after (PrivilegesChange role_authenticated []) (PrivilegesChange role_authenticated ["INSERT"])
     = effectivePrivileges
         (props (keep st (PrivilegesChange role_authenticated ["INSERT"]))).
Proof.
  apply (role_edits_compose (mount (existingTable (Some anonSelectsRemote)))
           role_anon role_authenticated [] ["INSERT"]).
  reflexivity.
Defined.

(** X14. With the schema exposed and the switch on, when the selectors are
    used to empty the only role that has privileges (the parent keeping the
    edit), the switch goes off and switching it on again emits the
    privileges that were shown before the role was emptied. *)
Theorem cleared_then_switch_on_restores (st : State) (role : ApiAccessRole) :
  isSchemaExposed (props st) = true ->
  isSwitchOn (effectivePrivileges (props st)) = true ->
  (forall r, r <> role -> get_role r (effectivePrivileges (props st)) = []) ->
  let cleared := keep st (PrivilegesChange role []) in
  isSwitchOn (effectivePrivileges (props cleared)) = false
  /\ emitted cleared (MasterToggle true) = Some (effectivePrivileges (props st)).
Proof.
  intros Hexposed Hon Hothers cleared.
  pose proof (emitted_change st role [] Hexposed) as Hemit.
  destruct (keep_effective st _ _ Hemit) as [Heff Hexp].
  assert (set_role role (@nil string) (effectivePrivileges (props st))
          = emptyPrivileges) as Hempty.
  { apply ToggleFacts.role_ext. intros r.
    destruct r, role; simpl;
      try reflexivity;
      (apply (Hothers role_anon) || apply (Hothers role_authenticated));
      discriminate. }
  fold cleared in Heff, Hexp. split.
  - rewrite Heff, Hempty. reflexivity.
  - assert (savedPrivileges cleared = Some (effectivePrivileges (props st)))
      as Hsaved.
    { assert (savedPrivileges (step st (PrivilegesChange role []))
              = Some (effectivePrivileges (props st))) as Hfirst.
      { unfold step. rewrite ToggleFacts.saved_sync. simpl.
        unfold handlePrivilegesChange. rewrite Hexposed. simpl.
        now rewrite Hon. }
      unfold cleared, keep. rewrite step_rerender_saved.
      rewrite Hemit, (handler_props st _ _ Hemit).
      rewrite ToggleFacts.effectivePrivileges_withEdit by assumption.
      rewrite Hempty. exact Hfirst. }
    unfold emitted, handle, handleMasterToggle. rewrite Hexp, Hsaved.
    reflexivity.
Qed.

Lemma cleared_then_switch_on_restores_witness :
  let st := mount (existingTable (Some anonSelectsRemote)) in
  let cleared := keep st (PrivilegesChange role_anon []) in
  isSwitchOn (effectivePrivileges (props cleared)) = false
  /\ emitted cleared (MasterToggle true) = Some anonSelects.
Proof.
  apply (cleared_then_switch_on_restores
           (mount (existingTable (Some anonSelectsRemote))) role_anon).
  - reflexivity.
  - reflexivity.
  - intros r Hr. destruct r; [contradiction | reflexivity].
Defined.

End ToggleMore.

(* ===================================================================== *)
(** ** More about what the component shows *)

Module ViewMore.
Import Ascii Query Toggle ToggleView Js Samples MoreSamples.

(** *** Strings *)

Lemma occurs_removeSpaces (c : ascii) (s : string) :
  occurs c (removeSpaces s) = true -> occurs c s = true /\ c <> " "%char.
Proof.
  induction s as [| d s IH]; simpl; [discriminate |].
  destruct (Ascii.eqb_spec d " "%char) as [-> | Hd]; simpl.
  - intros H. destruct (IH H) as [Hs Hc]. split; [| assumption].
    rewrite Hs. apply orb_true_r.
  - intros H. apply orb_true_iff in H. destruct H as [H | H].
    + apply Ascii.eqb_eq in H. subst c. split; [| assumption].
      now rewrite Ascii.eqb_refl.
    + destruct (IH H) as [Hs Hc]. split; [| assumption].
      rewrite Hs. apply orb_true_r.
Qed.

Lemma splitComma_pieces (c : ascii) (s piece : string) :
  In piece (splitComma s) -> occurs c piece = true ->
  occurs c s = true /\ c <> ","%char.
Proof.
  revert piece. induction s as [| d s IH]; simpl; intros piece Hin Hocc.
  - destruct Hin as [<- | []]. discriminate.
  - destruct (Ascii.eqb_spec d ","%char) as [-> | Hd].
    + destruct Hin as [<- | Hin]; [discriminate |].
      destruct (IH piece Hin Hocc) as [Hs Hc]. split; [| assumption].
      rewrite Hs. apply orb_true_r.
    + destruct (splitComma s) as [| first others] eqn:Hsplit.
      * destruct Hin as [<- | []]. simpl in Hocc.
        rewrite orb_false_r in Hocc. apply Ascii.eqb_eq in Hocc. subst c.
        split; [| assumption]. now rewrite Ascii.eqb_refl.
      * destruct Hin as [<- | Hin].
        -- simpl in Hocc. apply orb_true_iff in Hocc.
           destruct Hocc as [Hocc | Hocc].
           ++ apply Ascii.eqb_eq in Hocc. subst c.
              split; [| assumption]. now rewrite Ascii.eqb_refl.
           ++ destruct (IH first (or_introl eq_refl) Hocc) as [Hs Hc].
              split; [| assumption]. rewrite Hs. apply orb_true_r.
        -- destruct (IH piece (or_intror Hin) Hocc) as [Hs Hc].
           split; [| assumption]. rewrite Hs. apply orb_true_r.
Qed.

Lemma removeSpaces_app (a b : string) :
  removeSpaces (a ++ b) = removeSpaces a ++ removeSpaces b.
Proof.
  induction a as [| c a IH]; simpl; [reflexivity |].
  destruct (Ascii.eqb c " "%char); simpl; now rewrite IH.
Qed.

Lemma removeSpaces_none (s : string) :
  occurs " "%char s = false -> removeSpaces s = s.
Proof.
  induction s as [| c s IH]; simpl; [reflexivity |].
  intros H. apply orb_false_iff in H. destruct H as [Hc Hs].
  rewrite Hc. now rewrite IH.
Qed.

Lemma splitComma_head (n rest : string) :
  occurs ","%char n = false ->
  splitComma (n ++ String ","%char rest) = n :: splitComma rest.
Proof.
  induction n as [| c n IH]; simpl; [reflexivity |].
  intros H. apply orb_false_iff in H. destruct H as [Hc Hn].
  rewrite Hc, (IH Hn). reflexivity.
Qed.

Lemma splitComma_single (n : string) :
  occurs ","%char n = false -> splitComma n = [n].
Proof.
  induction n as [| c n IH]; simpl; [reflexivity |].
  intros H. apply orb_false_iff in H. destruct H as [Hc Hn].
  rewrite Hc, (IH Hn). reflexivity.
Qed.

(** A schema name as the configuration lists it: not empty, without a
    space and without a comma. *)
Lemma split_joined (names : list string) :
  names <> [] ->
  (forall n, In n names ->
             occurs " "%char n = false /\ occurs ","%char n = false) ->
  splitComma (removeSpaces (join ", " names)) = names.
Proof.
  induction names as [| n rest IH]; intros Hne Hclean; [contradiction |].
  destruct (Hclean n (or_introl eq_refl)) as [Hspace Hcomma].
  destruct rest as [| m rest].
  - simpl. rewrite (removeSpaces_none n Hspace). now apply splitComma_single.
  - change (join ", " (n :: m :: rest))
      with (n ++ ", " ++ join ", " (m :: rest)).
    rewrite removeSpaces_app, (removeSpaces_none n Hspace).
    change (removeSpaces (", " ++ join ", " (m :: rest)))
      with (String ","%char (removeSpaces (join ", " (m :: rest)))).
    rewrite (splitComma_head n _ Hcomma). f_equal.
    apply IH; [discriminate |].
    intros k Hk. apply Hclean. now right.
Qed.

(** X15. No exposed schema name has a space or a comma in it, whatever the
    configuration says; so a schema whose name has a space or a comma is
    never exposed, even when the configuration lists that very name. *)
Theorem exposedSchemas_clean (db_schema : option string) :
  (forall name, In name (exposedSchemas db_schema) ->
                occurs " "%char name = false /\ occurs ","%char name = false)
  /\ (forall schema,
         occurs " "%char schema = true \/ occurs ","%char schema = true ->
         isSchemaExposedIn db_schema schema = false).
Proof.
  assert (forall name, In name (exposedSchemas db_schema) ->
                       occurs " "%char name = false
                       /\ occurs ","%char name = false) as Hclean.
  { intros name. unfold exposedSchemas.
    destruct (negb (truthy_opt_string db_schema)); [intros [] |].
    intros Hin. split.
    - destruct (occurs " "%char name) eqn:Hocc; [| reflexivity].
      destruct (splitComma_pieces _ _ _ Hin Hocc) as [Hs _].
      apply occurs_removeSpaces in Hs. now destruct Hs.
    - destruct (occurs ","%char name) eqn:Hocc; [| reflexivity].
      now destruct (splitComma_pieces _ _ _ Hin Hocc). }
  split; [exact Hclean |].
  intros schema Hbad. unfold isSchemaExposedIn.
  apply includes_false. intros Hin.
  destruct (Hclean schema Hin) as [Hspace Hcomma].
  destruct Hbad as [Hbad | Hbad]; congruence.
Qed.

Lemma exposedSchemas_clean_witness :
  isSchemaExposedIn (Some "public, my schema") "my schema" = false.
Proof.
  apply (proj2 (exposedSchemas_clean (Some "public, my schema"))).
  left. reflexivity.
Defined.

(** X16. A configuration that lists schema names (not empty, without a
    space or a comma) separated by a comma and a space is read back as
    exactly those names, so that a schema is exposed exactly when it is
    listed. *)
Theorem exposedSchemas_of_joined (names : list string) :
  names <> [] ->
  (forall n, In n names ->
             n <> "" /\ occurs " "%char n = false /\ occurs ","%char n = false) ->
  exposedSchemas (Some (join ", " names)) = names
  /\ forall schema,
       isSchemaExposedIn (Some (join ", " names)) schema = true <->
       In schema names.
Proof.
  intros Hne Hclean.
  assert (exposedSchemas (Some (join ", " names)) = names) as Hread.
  { unfold exposedSchemas.
    assert (truthy_opt_string (Some (join ", " names)) = true) as Htruthy.
    { destruct names as [| n rest]; [contradiction |].
      destruct (Hclean n (or_introl eq_refl)) as [Hn _].
      destruct n as [| c n]; [contradiction |].
      destruct rest; reflexivity. }
    rewrite Htruthy. simpl negb. cbv iota. simpl nullish.
    apply split_joined; [assumption |].
    intros n Hn. now destruct (Hclean n Hn) as (_ & Hs & Hc). }
  split; [exact Hread |].
  intros schema. unfold isSchemaExposedIn. rewrite Hread.
  apply includes_In.
Qed.

Lemma exposedSchemas_of_joined_witness :
  exposedSchemas (Some "public, storage, graphql_public")
  = ["public"; "storage"; "graphql_public"]
  /\ forall schema,
       isSchemaExposedIn (Some "public, storage, graphql_public") schema = true <->
       In schema ["public"; "storage"; "graphql_public"].
Proof.
  apply (exposedSchemas_of_joined ["public"; "storage"; "graphql_public"]).
  - discriminate.
  - intros n [<- | [<- | [<- | []]]];
      (split; [discriminate | split; reflexivity]).
Defined.

(** *** The URL *)

Lemma append_slash (e : string) :
  endsWithSlash (e ++ "/") = true /\ dropLast (e ++ "/") = e
  /\ String.eqb (e ++ "/") "" = false.
Proof.
  induction e as [| c e IH]; [repeat split |].
  destruct IH as (Hends & Hdrop & _).
  destruct e as [| d e]; [repeat split |].
  change ((String c (String d e)) ++ "/")
    with (String c ((String d e) ++ "/")).
  change ((String d e) ++ "/") with (String d (e ++ "/")) in *.
  repeat split.
  - exact Hends.
  - change (dropLast (String c (String d (e ++ "/"))))
      with (String c (dropLast (String d (e ++ "/")))).
    now rewrite Hdrop.
Qed.

Lemma dropLast_empty (e : string) :
  endsWithSlash e = true -> dropLast e = "" -> e = "/".
Proof.
  destruct e as [| c e]; [discriminate |].
  destruct e as [| d e]; simpl.
  - intros H _. apply Ascii.eqb_eq in H. now subst c.
  - discriminate.
Qed.

Lemma tablePath_empty (schema tableName : string) :
  tablePath schema tableName = "" <->
  tableName = "" /\ (schema = "" \/ schema = "public").
Proof.
  unfold tablePath.
  destruct (String.eqb_spec schema "") as [-> | Hempty]; simpl.
  - split; [intros ->; auto | tauto].
  - destruct (String.eqb_spec schema "public") as [-> | Hpublic]; simpl.
    + split; [intros ->; auto | tauto].
    + split.
      * destruct schema; [contradiction | discriminate].
      * intros [_ [H | H]]; contradiction.
Qed.

Lemma apiBaseUrl_None (apiEndpoint : option string) :
  apiBaseUrl apiEndpoint = None <->
  apiEndpoint = None \/ apiEndpoint = Some "".
Proof.
  unfold apiBaseUrl. destruct apiEndpoint as [e |]; [| tauto].
  destruct (String.eqb_spec e "") as [-> | Hne]; [tauto |].
  destruct (endsWithSlash e); split; try discriminate;
    intros [H | H]; try discriminate; inversion H; contradiction.
Qed.

Lemma apiBaseUrl_empty (apiEndpoint : option string) :
  apiBaseUrl apiEndpoint = Some "" <-> apiEndpoint = Some "/".
Proof.
  unfold apiBaseUrl. destruct apiEndpoint as [e |]; [| split; discriminate].
  destruct (String.eqb_spec e "") as [-> | Hne]; [split; discriminate |].
  destruct (endsWithSlash e) eqn:Hends.
  - split.
    + intros H. injection H as Hdrop. f_equal. now apply dropLast_empty.
    + intros H. injection H as ->. reflexivity.
  - split.
    + intros H. injection H as ->. contradiction.
    + intros H. injection H as ->. discriminate.
Qed.

(** X17. One slash at the end of the endpoint does not change the URL: an
    endpoint given with it and the same endpoint given without it yield the
    same URL (or both none). *)
Theorem apiUrl_trailing_slash (endpoint schema tableName : string) :
  endsWithSlash endpoint = false ->
  apiUrl (Some (endpoint ++ "/")) schema tableName
  = apiUrl (Some endpoint) schema tableName.
Proof.
  intros Hends. unfold apiUrl, apiBaseUrl.
  destruct (append_slash endpoint) as (Hslash & Hdrop & Hnonempty).
  rewrite Hnonempty, Hslash, Hdrop, Hends.
  destruct (String.eqb endpoint "") eqn:Hempty; simpl; rewrite ?Hempty;
    reflexivity.
Qed.

Lemma apiUrl_trailing_slash_witness :
  apiUrl (Some "https://abcd.supabase.co/") "public" "todos"
  = apiUrl (Some "https://abcd.supabase.co") "public" "todos".
Proof.
  apply (apiUrl_trailing_slash "https://abcd.supabase.co" "public" "todos").
  reflexivity.
Defined.

(** X18. There is no URL exactly when there is no endpoint, the endpoint is
    empty or a lone slash, or the table has no name in the public (or an
    unnamed) schema; in every other case the URL is the endpoint without
    its last slash, a slash and the table's path. *)
Theorem apiUrl_none_iff (apiEndpoint : option string) (schema tableName : string) :
  (apiUrl apiEndpoint schema tableName = None <->
   (apiEndpoint = None \/ apiEndpoint = Some "" \/ apiEndpoint = Some "/")
   \/ (tableName = "" /\ (schema = "" \/ schema = "public")))
  /\ (forall url,
         apiUrl apiEndpoint schema tableName = Some url ->
         exists base,
           apiBaseUrl apiEndpoint = Some base
           /\ url = base ++ "/" ++ tablePath schema tableName).
Proof.
  split.
  - unfold apiUrl.
    destruct (apiBaseUrl apiEndpoint) as [base |] eqn:Hbase.
    + destruct (String.eqb_spec base "") as [-> | Hb]; simpl.
      * split; [intros _ | reflexivity].
        left. right. right. now apply apiBaseUrl_empty.
      * destruct (String.eqb_spec (tablePath schema tableName) "")
          as [Hpath | Hpath]; simpl.
        -- split; [intros _ | reflexivity].
           right. now apply tablePath_empty.
        -- split; [discriminate |].
           intros [[H | [H | H]] | H].
           ++ subst. discriminate.
           ++ subst. discriminate.
           ++ apply apiBaseUrl_empty in H. congruence.
           ++ apply tablePath_empty in H. contradiction.
    + split; [intros _ | reflexivity].
      left. apply apiBaseUrl_None in Hbase. tauto.
  - intros url. unfold apiUrl.
    destruct (apiBaseUrl apiEndpoint) as [base |]; [| discriminate].
    destruct (negb (String.eqb base "")
              && negb (String.eqb (tablePath schema tableName) ""));
      [| discriminate].
    intros H. inversion H. now exists base.
Qed.

Lemma apiUrl_none_iff_witness :
  apiUrl (Some "/") "public" "todos" = None
  /\ exists base,
       apiBaseUrl (Some "https://abcd.supabase.co/") = Some base
       /\ "https://abcd.supabase.co/storage.objects"
          = base ++ "/" ++ tablePath "storage" "objects".
Proof.
  split.
  - apply (proj1 (apiUrl_none_iff (Some "/") "public" "todos")).
    left. right. right. reflexivity.
  - apply (proj2 (apiUrl_none_iff (Some "https://abcd.supabase.co/")
                    "storage" "objects")).
    reflexivity.
Defined.

(** *** Marks, guards and the first load *)

Lemma total_positive_switch (e : ApiPrivilegesPerRole) :
  (0 < totalSelectedPrivileges e)%nat -> isSwitchOn e = true.
Proof.
  destruct e as [a b]. unfold totalSelectedPrivileges, isSwitchOn. simpl.
  destruct a; [| reflexivity]. destruct b; [simpl; lia | reflexivity].
Qed.

(** X19. The two tests for "some privilege is granted" agree, so the URL is
    only shown while the switch is on (and the schema exposed), and the mark
    for partial privileges only shows while the switch is on. *)
Theorem marks_follow_switch (p : Props) :
  hasAnyPrivileges (effectivePrivileges p) = isSwitchOn (effectivePrivileges p)
  /\ (hasPartialPrivileges (effectivePrivileges p) = true ->
      isSwitchOn (effectivePrivileges p) = true)
  /\ (forall apiEndpoint schema tableName url,
         shownApiUrl p apiEndpoint schema tableName = Some url ->
         isSwitchOn (effectivePrivileges p) = true
         /\ isSchemaExposed p = true
         /\ apiUrl apiEndpoint schema tableName = Some url).
Proof.
  assert (forall e, hasAnyPrivileges e = isSwitchOn e) as Hany.
  { intros [a b]. unfold hasAnyPrivileges, isSwitchOn. simpl.
    now destruct a, b. }
  split; [apply Hany |]. split.
  - intros Hpartial. apply total_positive_switch.
    unfold hasPartialPrivileges in Hpartial.
    apply andb_true_iff in Hpartial. destruct Hpartial as [Hpos _].
    now apply Nat.ltb_lt.
  - intros apiEndpoint schema tableName url. unfold shownApiUrl.
    destruct (apiUrl apiEndpoint schema tableName) as [u |]; [| discriminate].
    rewrite Hany.
    destruct (isSchemaExposed p); [| discriminate].
    destruct (isSwitchOn (effectivePrivileges p)); [| discriminate].
    simpl. intros H. inversion H. auto.
Qed.

Lemma marks_follow_switch_witness :
  isSwitchOn (effectivePrivileges (existingTable (Some anonSelectsRemote))) = true
  /\ (isSwitchOn (effectivePrivileges (existingTable None)) = true
      /\ isSchemaExposed (existingTable None) = true
      /\ apiUrl (Some "https://abcd.supabase.co") "public" "todos"
         = Some "https://abcd.supabase.co/todos").
Proof.
  split.
  - apply (proj1 (proj2 (marks_follow_switch
                           (existingTable (Some anonSelectsRemote))))).
    reflexivity.
  - apply (proj2 (proj2 (marks_follow_switch (existingTable None)))).
    reflexivity.
Defined.

(** X20. The privileges reported by [onInitialLoad] are the effective
    privileges of that render; they are reported exactly when the schema is
    exposed, privileges were fetched and the parent holds no edit. *)
Theorem initialLoad_is_effective (p : Props) (e : ApiPrivilegesPerRole) :
  (initialLoad p = Some e <->
   isSchemaExposed p = true /\ apiPrivileges p = None
   /\ exists data, apiAccessData p = Some data /\ privileges data = e)
  /\ (initialLoad p = Some e -> effectivePrivileges p = e).
Proof.
  unfold initialLoad, effectivePrivileges, derivedPrivileges.
  destruct (apiAccessData p) as [data |], (apiPrivileges p) as [edit |],
    (isSchemaExposed p); simpl; split;
    try (split; [discriminate | intros (H1 & H2 & d & H3 & H4); discriminate]);
    try discriminate.
  - split.
    + intros H. inversion H. repeat split. now exists data.
    + intros (_ & _ & d & Hd & He). inversion Hd. now subst.
  - intros H. now inversion H.
Qed.

Lemma initialLoad_is_effective_witness :
  effectivePrivileges (existingTable (Some anonSelectsRemote)) = anonSelects.
Proof.
  apply (proj2 (initialLoad_is_effective
                  (existingTable (Some anonSelectsRemote)) anonSelects)).
  reflexivity.
Defined.

(** X21. A switch that is not disabled always answers: each handler then
    emits an edit. A schema that is not exposed disables the controls
    whatever the loading state, and the handlers then emit nothing. A new
    or duplicated table is never held back by loading. *)
Theorem disabled_matches_guard (st : State) (isApiAccessLoading : bool) :
  (isDisabled (props st) isApiAccessLoading = false ->
   (forall checked, exists e, emitted st (MasterToggle checked) = Some e)
   /\ (forall role values,
          exists e, emitted st (PrivilegesChange role values) = Some e))
  /\ (isSchemaExposed (props st) = false ->
      isDisabled (props st) isApiAccessLoading = true
      /\ (forall checked, emitted st (MasterToggle checked) = None)
      /\ (forall role values, emitted st (PrivilegesChange role values) = None))
  /\ (isNewRecord (props st) = true \/ isDuplicating (props st) = true ->
      isLoadingState (props st) isApiAccessLoading = false).
Proof.
  unfold isDisabled, isLoadingState, emitted, handle,
    handleMasterToggle, handlePrivilegesChange.
  split; [| split].
  - intros Hdisabled. apply orb_false_iff in Hdisabled.
    destruct Hdisabled as [_ Hexposed]. apply negb_false_iff in Hexposed.
    rewrite Hexposed. simpl. split.
    + intros []; eexists; reflexivity.
    + intros role values. eexists. reflexivity.
  - intros Hexposed. rewrite Hexposed. simpl.
    split; [apply orb_true_r | split; reflexivity].
  - intros [H | H]; rewrite H; simpl; [reflexivity |].
    now rewrite andb_false_r.
Qed.

Lemma disabled_matches_guard_witness :
  ((forall checked,
       exists e, emitted (mount (existingTable None)) (MasterToggle checked) = Some e)
   /\ (forall role values,
          exists e,
            emitted (mount (existingTable None)) (PrivilegesChange role values)
            = Some e))
  /\ isDisabled (props (mount newUnexposed)) true = true
  /\ isLoadingState (props (mount newUnexposed)) true = false.
Proof.
  split; [| split].
  - apply (proj1 (disabled_matches_guard (mount (existingTable None)) false)).
    reflexivity.
  - apply (proj1 (proj2 (disabled_matches_guard (mount newUnexposed) true))).
    reflexivity.
  - apply (proj2 (proj2 (disabled_matches_guard (mount newUnexposed) true))).
    left. reflexivity.
Defined.

End ViewMore.

(* ===================================================================== *)
(** ** The boolean switch and the privileges switch *)

Module BooleanMore.
Import Query Samples.

Lemma fetched_hasApiAccess
  (data : option TablePrivilegesData) (relationId : option Z)
  (schema tableName : option string) :
  hasApiAccess (mapPrivilegesToApiAccess data relationId schema tableName)
  = Toggle.isSwitchOn
      (privileges (mapPrivilegesToApiAccess data relationId schema tableName)).
Proof.
  unfold mapPrivilegesToApiAccess, Toggle.isSwitchOn. simpl.
  now rewrite orb_false_r.
Qed.

(** X22. Fed by the same query and with nothing edited, the switch of the
    boolean component is checked exactly when the schema is exposed and the
    privileges component finds some privilege in what it derives; so with
    the schema exposed both switches show the same. What the boolean
    component reports on its first load is whether the privileges reported
    by the other one are non-empty. *)
Theorem boolean_switch_agrees
  (fetched : option (option TablePrivilegesData)) (relationId : option Z)
  (schema tableName : option string) (exposed isNew isDup : bool) :
  let remote := option_map
                  (fun data => mapPrivilegesToApiAccess data relationId schema tableName)
                  fetched in
  let old := {| BooleanToggle.isApiAccessEnabled := None;
                BooleanToggle.apiAccessData := remote;
                BooleanToggle.isSchemaExposed := exposed;
                BooleanToggle.isNewRecord := isNew;
                BooleanToggle.isDuplicating := isDup |} in
  let new := {| Toggle.apiPrivileges := None;
                Toggle.apiAccessData := remote;
                Toggle.isSchemaExposed := exposed;
                Toggle.isNewRecord := isNew;
                Toggle.isDuplicating := isDup |} in
  BooleanToggle.checked old
  = exposed && Toggle.isSwitchOn (Toggle.derivedPrivileges new)
  /\ (exposed = true ->
      BooleanToggle.checked old
      = Toggle.isSwitchOn (Toggle.effectivePrivileges new))
  /\ (forall e, ToggleView.initialLoad new = Some e ->
                BooleanToggle.initialLoad old = Some (Toggle.isSwitchOn e)).
Proof.
  intros remote old new.
  assert (BooleanToggle.derivedApiAccessEnabled old
          = Toggle.isSwitchOn (Toggle.derivedPrivileges new)) as Hderived.
  { unfold BooleanToggle.derivedApiAccessEnabled, Toggle.derivedPrivileges.
    unfold old, new, remote. simpl.
    destruct fetched as [data |]; simpl; [| reflexivity].
    apply fetched_hasApiAccess. }
  split; [| split].
  - unfold BooleanToggle.checked. now rewrite Hderived.
  - intros ->. unfold BooleanToggle.checked. rewrite Hderived. reflexivity.
  - intros e. unfold ToggleView.initialLoad, BooleanToggle.initialLoad.
    unfold old, new, remote. simpl.
    destruct fetched as [data |]; simpl; [| discriminate].
    destruct exposed; [| discriminate].
    intros H. injection H as <-. f_equal. apply fetched_hasApiAccess.
Qed.

Lemma boolean_switch_agrees_witness :
  BooleanToggle.checked
    {| BooleanToggle.isApiAccessEnabled := None;
       BooleanToggle.apiAccessData :=
         Some (mapPrivilegesToApiAccess (Some payload) (Some 17%Z) None None);
       BooleanToggle.isSchemaExposed := true;
       BooleanToggle.isNewRecord := false;
       BooleanToggle.isDuplicating := false |}
  = Toggle.isSwitchOn
      (Toggle.effectivePrivileges
         (existingTable
            (Some (mapPrivilegesToApiAccess (Some payload) (Some 17%Z) None None)))).
Proof.
  apply (proj1 (proj2 (boolean_switch_agrees (Some (Some payload)) (Some 17%Z)
                         None None true false false))).
  reflexivity.
Defined.

End BooleanMore.

(* ===================================================================== *)
(** ** More about the realtime experiment *)

Module RealtimeMore.
Import Realtime RealtimeExposure MoreSamples.

Lemma exposureRuns_cons (tracked : bool) (i : Inputs) (r : option bool)
  (rest : list (Inputs * option bool)) :
  exposureRuns tracked ((i, r) :: rest)
  = (fst (exposureRuns (fst (exposureEffect tracked i r)) rest),
     match snd (exposureEffect tracked i r) with
     | Some e => e :: snd (exposureRuns (fst (exposureEffect tracked i r)) rest)
     | None => snd (exposureRuns (fst (exposureEffect tracked i r)) rest)
     end).
Proof.
  simpl. destruct (exposureEffect tracked i r) as [t event]. simpl.
  destruct (exposureRuns t rest) as [final events]. reflexivity.
Qed.

Lemma exposureEffect_tracked (i : Inputs) (r : option bool) :
  exposureEffect true i r = (true, None).
Proof.
  unfold exposureEffect. destruct (IS_PLATFORM i); reflexivity.
Qed.

Lemma exposureRuns_tracked (renders : list (Inputs * option bool)) :
  exposureRuns true renders = (true, []).
Proof.
  induction renders as [| [i r] rest IH]; [reflexivity |].
  rewrite exposureRuns_cons, exposureEffect_tracked. simpl.
  now rewrite IH.
Qed.

(** From an untracked ref, the effect either does nothing or tracks. *)
Lemma exposureEffect_untracked (i : Inputs) (r : option bool) :
  exposureEffect false i r = (false, None)
  \/ exists v,
      IS_PLATFORM i = true /\ isTable i = Some true
      /\ realtimeButtonVariant i = Some v
      /\ exposureEffect false i r
         = (true, Some {| variant := v;
                          table_has_realtime_enabled := nullish r false |}).
Proof.
  unfold exposureEffect.
  destruct i as [platform table flag]. simpl.
  destruct platform; [| now left].
  destruct table as [[] |]; simpl; try now left.
  destruct flag as [v |]; [| now left].
  right. exists v. repeat split.
Qed.

Lemma exposureEffect_fires (i : Inputs) (r : option bool) (v : RealtimeButtonVariant) :
  IS_PLATFORM i = true -> isTable i = Some true ->
  realtimeButtonVariant i = Some v ->
  exposureEffect false i r
  = (true, Some {| variant := v;
                   table_has_realtime_enabled := nullish r false |}).
Proof.
  intros Hp Ht Hf. unfold exposureEffect. now rewrite Hp, Ht, Hf.
Qed.

(** X23. Over the life of a mounted hook the exposure event is tracked at
    most once, and the ref is set at the end exactly when it was tracked. *)
Theorem exposure_tracked_once (renders : list (Inputs * option bool)) :
  (List.length (snd (exposureRuns false renders)) <= 1)%nat
  /\ (fst (exposureRuns false renders) = true <->
      snd (exposureRuns false renders) <> []).
Proof.
  induction renders as [| [i r] rest [IHlen IHref]].
  - simpl. split; [lia |]. split; [discriminate | congruence].
  - rewrite exposureRuns_cons.
    destruct (exposureEffect_untracked i r) as [Hidle | (v & _ & _ & _ & Hfire)].
    + rewrite Hidle. simpl. split; assumption.
    + rewrite Hfire. simpl. rewrite exposureRuns_tracked. simpl.
      split; [lia |]. split; [discriminate | reflexivity].
Qed.

(** X24. The event tracked is that of the first render that is on the
    platform, for a table and with a resolved flag: it carries that
    render's variant and realtime state, and nothing is tracked for the
    renders after it. *)
Theorem exposure_is_first_eligible
  (before after : list (Inputs * option bool)) (i : Inputs) (r : option bool)
  (v : RealtimeButtonVariant) :
  (forall x, In x before -> exposureEffect false (fst x) (snd x) = (false, None)) ->
  IS_PLATFORM i = true -> isTable i = Some true ->
  realtimeButtonVariant i = Some v ->
  exposureRuns false (before ++ (i, r) :: after)%list
  = (true, [ {| variant := v;
                table_has_realtime_enabled := nullish r false |} ]).
Proof.
  intros Hbefore Hp Ht Hf.
  induction before as [| [j q] before IH].
  - simpl app. rewrite exposureRuns_cons.
    rewrite (exposureEffect_fires i r v Hp Ht Hf). simpl.
    now rewrite exposureRuns_tracked.
  - simpl app. rewrite exposureRuns_cons.
    pose proof (Hbefore (j, q) (or_introl eq_refl)) as Hidle.
    simpl in Hidle. rewrite Hidle. simpl.
    rewrite IH; [reflexivity |].
    intros x Hx. apply Hbefore. now right.
Qed.

Lemma exposure_is_first_eligible_witness :
  exposureRuns false
    ([(onPlatform None, None)]
     ++ (onPlatform (Some TRIGGERS), Some true)
     :: [(onPlatform (Some HIDE_BUTTON), None)])%list
  = (true, [ {| variant := TRIGGERS; table_has_realtime_enabled := true |} ]).
Proof.
  apply (exposure_is_first_eligible
           [(onPlatform None, None)]
           [(onPlatform (Some HIDE_BUTTON), None)]
           (onPlatform (Some TRIGGERS)) (Some true) TRIGGERS).
  - intros x [<- | []]. reflexivity.
  - reflexivity.
  - reflexivity.
  - reflexivity.
Defined.

Lemma exposureRuns_last (before : list (Inputs * option bool)) (i : Inputs)
  (r : option bool) (v : RealtimeButtonVariant) (tracked : bool) :
  IS_PLATFORM i = true -> isTable i = Some true ->
  realtimeButtonVariant i = Some v ->
  fst (exposureRuns tracked (before ++ [(i, r)])%list) = true.
Proof.
  intros Hp Ht Hf. revert tracked.
  induction before as [| [j q] before IH]; intros tracked.
  - simpl app. destruct tracked.
    + now rewrite exposureRuns_tracked.
    + rewrite exposureRuns_cons, (exposureEffect_fires i r v Hp Ht Hf).
      reflexivity.
  - simpl app. rewrite exposureRuns_cons. simpl. apply IH.
Qed.

(** X25. By the end of any render in which a variant is active, the
    exposure has been tracked. In the other direction, an exposure is
    tracked for the active variant of its render or for the control
    variant, for which no variant is active. *)
Theorem active_variant_is_exposed (i : Inputs) (r : option bool) :
  (forall before v,
      activeVariant i = Some v ->
      fst (exposureRuns false (before ++ [(i, r)])%list) = true)
  /\ (forall e,
         snd (exposureEffect false i r) = Some e ->
         activeVariant i = Some (variant e)
         \/ (variant e = CONTROL /\ activeVariant i = None)).
Proof.
  split.
  - intros before v Hactive.
    apply RealtimeFacts.activeVariant_Some in Hactive.
    destruct Hactive as (Hp & Ht & Hf & _).
    now apply (exposureRuns_last before i r v false).
  - intros e He.
    destruct (exposureEffect_untracked i r) as [Hidle | (v & Hp & Ht & Hf & Hfire)].
    + rewrite Hidle in He. discriminate.
    + rewrite Hfire in He. simpl in He. injection He as <-. simpl.
      destruct v.
      * right. split; [reflexivity |].
        destruct (activeVariant i) as [w |] eqn:Hactive; [| reflexivity].
        apply RealtimeFacts.activeVariant_Some in Hactive.
        destruct Hactive as (_ & _ & Hw & Hnc). congruence.
      * left. apply RealtimeFacts.activeVariant_Some.
        repeat split; try assumption. discriminate.
      * left. apply RealtimeFacts.activeVariant_Some.
        repeat split; try assumption. discriminate.
Qed.

Lemma active_variant_is_exposed_witness :
  fst (exposureRuns false
         ([(onPlatform None, None)] ++ [(onPlatform (Some TRIGGERS), None)])%list)
  = true
  /\ (variant {| variant := CONTROL; table_has_realtime_enabled := false |} = CONTROL
      /\ activeVariant (onPlatform (Some CONTROL)) = None).
Proof.
  split.
  - apply (proj1 (active_variant_is_exposed (onPlatform (Some TRIGGERS)) None)
             [(onPlatform None, None)] TRIGGERS).
    reflexivity.
  - destruct (proj2 (active_variant_is_exposed (onPlatform (Some CONTROL)) None)
                {| variant := CONTROL; table_has_realtime_enabled := false |}
                eq_refl) as [Hactive | Hcontrol].
    + discriminate Hactive.
    + exact Hcontrol.
Defined.

End RealtimeMore.
